(** * email-bcast: registration, admin session and broadcast (src/main.py)

    A shallow embedding of the request handlers of [src/main.py] and of the
    collaborators they drive (the Redis store, the signed session, the SMTP
    relay, the log file), followed by the properties of the handlers.

    Conventions.
    - Python [str] values are Rocq strings, read as sequences of code points
      below 256.
    - A handler is a computation in the monad [M]: it threads the [world]
      (Redis store, session dict, trace of observable events) and either
      returns a value or raises a Python exception [exn].
    - Library calls whose code is not in the repository (pydantic's
      [EmailStr.validate] and [bcrypt.checkpw], which may raise, and
      [bcrypt.hashpw]) and the configuration read from the process
      environment are the fields of the record [runtime].
    - What the framework does before a handler body runs is part of a
      request: the dependency [get_redis], with the pings, warnings and
      sleeps of its retry loop, and then the check of the [Form(...)]
      fields. *)

From Stdlib Require Import ZArith Ascii DecimalString DecimalPos DecimalZ Lia.
From stdpp Require Import gmap strings list fin_maps.

Local Open Scope Z_scope.

(** ** Python strings *)

Module PyStr.

Definition code (c : ascii) : N := N_of_ascii c.

(** [str.isspace] on one code point below 256. *)
Definition isspace (c : ascii) : bool :=
  let n := code c in
  (((9 <=? n) && (n <=? 13)) || ((28 <=? n) && (n <=? 32))
    || (n =? 133) || (n =? 160))%N.

(** [str.lower] on one code point below 256. *)
Definition lower_char (c : ascii) : ascii :=
  let n := code c in
  if (((65 <=? n) && (n <=? 90))
      || ((192 <=? n) && (n <=? 222) && negb (n =? 215)))%N
  then ascii_of_N (n + 32) else c.

Fixpoint lower (s : string) : string :=
  match s with
  | EmptyString => EmptyString
  | String c s' => String (lower_char c) (lower s')
  end.

Fixpoint lstrip (s : string) : string :=
  match s with
  | EmptyString => EmptyString
  | String c s' => if isspace c then lstrip s' else s
  end.

(** [rstrip] keeps a character when it is not a space or when something
    is kept after it. *)
Fixpoint rstrip (s : string) : string :=
  match s with
  | EmptyString => EmptyString
  | String c s' =>
      match rstrip s' with
      | EmptyString => if isspace c then EmptyString else String c EmptyString
      | r => String c r
      end
  end.

Definition strip (s : string) : string := rstrip (lstrip s).

Fixpoint startswith (p s : string) : bool :=
  match p, s with
  | EmptyString, _ => true
  | String a p', String b s' => if ascii_dec a b then startswith p' s' else false
  | String _ _, EmptyString => false
  end.

Fixpoint between_all (new s : string) : string :=
  match s with
  | EmptyString => new
  | String c s' => new +:+ String c (between_all new s')
  end.

(** Left-to-right scan of [str.replace] for a non-empty [old]: [skip] counts
    the characters of a match that are still to be passed over. *)
Fixpoint replace_scan (skip : nat) (old new s : string) : string :=
  match s with
  | EmptyString => EmptyString
  | String c s' =>
      match skip with
      | S k => replace_scan k old new s'
      | O =>
          if startswith old s
          then new +:+ replace_scan (Nat.pred (String.length old)) old new s'
          else String c (replace_scan 0 old new s')
      end
  end.

(** [s.replace(old, new)]. *)
Definition replace (s old new : string) : string :=
  match old with
  | EmptyString => between_all new s
  | String _ _ => replace_scan 0 old new s
  end.

(** [str(n)] for a Python int. *)
Definition str (z : Z) : string := NilZero.string_of_int (Z.to_int z).

(** Strict decimal reading, as Redis does for INCR: only the canonical
    rendering of an integer is accepted. *)
Definition int_of_str (s : string) : option Z :=
  match NilZero.int_of_string s with
  | Some d => let z := Z.of_int d in
              if String.eqb (str z) s then Some z else None
  | None => None
  end.

End PyStr.

(** ** Exceptions, responses and observable events *)

(** The Python exceptions the handlers raise, catch or let through.
    [RedisAuthenticationError] is a subclass of [RedisConnectionError], and
    every [Redis...] class is a subclass of [redis.RedisError]. *)
Inductive exn :=
| NameError (name : string)
| TypeError (msg : string)
| AttributeError (msg : string)
| ValidationError
| ValueError (msg : string)
| HTTPException (status_code : Z) (detail : string)
| RedisConnectionError (msg : string)
| RedisAuthenticationError (msg : string)
| RedisResponseError (msg : string)
| RedisTimeoutError (msg : string)
| SMTPException (msg : string)
| OSError (msg : string)
| RuntimeError (msg : string)
| FileNotFoundError.

Definition is_AuthenticationError (e : exn) : bool :=
  match e with RedisAuthenticationError _ => true | _ => false end.

Definition is_ConnectionError (e : exn) : bool :=
  match e with
  | RedisConnectionError _ | RedisAuthenticationError _ => true
  | _ => false
  end.

Definition is_RedisError (e : exn) : bool :=
  match e with
  | RedisConnectionError _ | RedisAuthenticationError _
  | RedisResponseError _ | RedisTimeoutError _ => true
  | _ => false
  end.

Definition is_SMTPException (e : exn) : bool :=
  match e with SMTPException _ => true | _ => false end.

Definition is_AttributeError (e : exn) : bool :=
  match e with AttributeError _ => true | _ => false end.

Definition is_FileNotFoundError (e : exn) : bool :=
  match e with FileNotFoundError => true | _ => false end.

(** [str(e)]. *)
Definition exn_str (e : exn) : string :=
  match e with
  | NameError n => "name '" +:+ n +:+ "' is not defined"
  | TypeError m | AttributeError m | ValueError m | RedisConnectionError m
  | RedisAuthenticationError m | RedisResponseError m | RedisTimeoutError m
  | SMTPException m | OSError m | RuntimeError m => m
  | HTTPException _ d => d
  | ValidationError => "validation error"
  | FileNotFoundError => "No such file or directory: 'logs.txt'"
  end.

(** What a route answers.  The template context is listed without its
    ["request"] entry. *)
Inductive response :=
| TemplateResponse (name : string) (context : list (string * string))
                   (status_code : Z)
| RedirectResponse (url : string) (status_code : Z)
| ErrorResponse (status_code : Z) (detail : string).

Definition status_of (r : response) : Z :=
  match r with
  | TemplateResponse _ _ s | RedirectResponse _ s | ErrorResponse s _ => s
  end.

Inductive log_level := INFO | WARNING | ERROR.

(** The message object built by [send_email].  [To] is a Python value that
    may be [None] (a record without an "email" field). *)
Record EmailMessage := {
  Subject : string;
  From : string;
  To : option string;
  content : string
}.

Inductive event :=
| Log (level : log_level) (msg : string)
| SmtpConnect (host : string) (port : Z)
| SmtpStartTLS
| SmtpLogin (user password : string)
| SmtpSendMessage (msg : EmailMessage)
| SmtpQuit
| Ping
| Sleep (seconds : Z).

(** ** The Redis store *)

Inductive rvalue :=
| RString (s : string)
| RHash (h : gmap string string).

Record world := {
  redis : gmap string rvalue;
  session : gmap string bool;
  trace : list event
}.

Definition set_redis (d : gmap string rvalue) (w : world) : world :=
  {| redis := d; session := session w; trace := trace w |}.

Definition set_session (s : gmap string bool) (w : world) : world :=
  {| redis := redis w; session := s; trace := trace w |}.

Definition emit (e : event) (w : world) : world :=
  {| redis := redis w; session := session w; trace := trace w ++ [e] |}.

(** ** The monad of handlers *)

Definition M (A : Type) : Type := world -> (exn + A) * world.

Definition ret {A} (a : A) : M A := fun w => (inr a, w).

Definition raise {A} (e : exn) : M A := fun w => (inl e, w).

Definition bind {A B} (m : M A) (k : A -> M B) : M B :=
  fun w => match m w with
           | (inr a, w') => k a w'
           | (inl e, w') => (inl e, w')
           end.

(** [try: m  except <classes>: h]. *)
Definition try_except {A} (m : M A) (catches : exn -> bool) (h : exn -> M A)
  : M A :=
  fun w => match m w with
           | (inl e, w') => if catches e then h e w' else (inl e, w')
           | r => r
           end.

(** [try: m  finally: fin], as run by leaving a [with] block. *)
Definition finally {A} (m : M A) (fin : M unit) : M A :=
  fun w => match m w with
           | (r, w') => match fin w' with
                        | (inl e, w'') => (inl e, w'')
                        | (inr _, w'') => (r, w'')
                        end
           end.

Notation "'do' x <- m ; k" := (bind m (fun x => k))
  (at level 10, x name, m at level 100, k at level 200,
   format "'[v' 'do'  x  <-  m ; '/' k ']'").

Notation "'exec' m ; k" := (bind m (fun _ => k))
  (at level 10, m at level 100, k at level 200,
   format "'[v' 'exec'  m ; '/' k ']'").

Fixpoint for_each {A} (l : list A) (body : A -> M unit) : M unit :=
  match l with
  | [] => ret tt
  | x :: l' => exec body x; for_each l' body
  end.

Fixpoint collect {A B} (l : list A) (body : A -> M B) : M (list B) :=
  match l with
  | [] => ret []
  | x :: l' => do y <- body x; do ys <- collect l' body; ret (y :: ys)
  end.

Definition log (lvl : log_level) (msg : string) : M unit :=
  fun w => (inr tt, emit (Log lvl msg) w).

Definition event_ (e : event) : M unit := fun w => (inr tt, emit e w).

(** *** Redis commands

    The commands are modelled on a connection that stays up once
    [get_redis] has handed it over: each one fails only as the server makes
    it fail (wrong type, not an integer, overflow), not by a transport error
    in the middle of a request. *)

Definition WRONGTYPE : exn :=
  RedisResponseError
    "WRONGTYPE Operation against a key holding the wrong kind of value".

Definition INT64_MAX : Z := 9223372036854775807.

Definition r_exists (key : string) : M bool :=
  fun w => (inr (bool_decide (is_Some (redis w !! key))), w).

Definition hexists (key field : string) : M bool :=
  fun w => match redis w !! key with
           | None => (inr false, w)
           | Some (RHash h) => (inr (bool_decide (is_Some (h !! field))), w)
           | Some (RString _) => (inl WRONGTYPE, w)
           end.

Definition hgetall (key : string) : M (gmap string string) :=
  fun w => match redis w !! key with
           | None => (inr ∅, w)
           | Some (RHash h) => (inr h, w)
           | Some (RString _) => (inl WRONGTYPE, w)
           end.

Definition set_fields (mapping : list (string * string))
  (h : gmap string string) : gmap string string :=
  foldl (fun acc fv => <[fv.1 := fv.2]> acc) h mapping.

Definition hset (key : string) (mapping : list (string * string)) : M unit :=
  fun w => match redis w !! key with
           | None =>
               (inr tt, set_redis (<[key := RHash (set_fields mapping ∅)]> (redis w)) w)
           | Some (RHash h) =>
               (inr tt, set_redis (<[key := RHash (set_fields mapping h)]> (redis w)) w)
           | Some (RString _) => (inl WRONGTYPE, w)
           end.

Definition incr (key : string) : M Z :=
  fun w => match redis w !! key with
           | None => (inr 1, set_redis (<[key := RString (PyStr.str 1)]> (redis w)) w)
           | Some (RString s) =>
               match PyStr.int_of_str s with
               | Some n =>
                   if (n <? - INT64_MAX - 1) || (INT64_MAX <? n)
                   then (inl (RedisResponseError
                                "value is not an integer or out of range"), w)
                   else if n =? INT64_MAX
                   then (inl (RedisResponseError
                                "increment or decrement would overflow"), w)
                   else (inr (n + 1),
                         set_redis (<[key := RString (PyStr.str (n + 1))]> (redis w)) w)
               | None =>
                   (inl (RedisResponseError
                           "value is not an integer or out of range"), w)
               end
           | Some (RHash _) => (inl WRONGTYPE, w)
           end.

(** Redis glob patterns with literal characters and [*]. *)
Fixpoint glob_match (p : string) : string -> bool :=
  match p with
  | EmptyString => fun s => match s with EmptyString => true | _ => false end
  | String c p' =>
      if ascii_dec c "*"%char
      then fix star (s : string) : bool :=
             glob_match p' s
             || match s with
                | EmptyString => false
                | String _ s' => star s'
                end
      else fun s => match s with
                    | String d s' => if ascii_dec c d then glob_match p' s' else false
                    | EmptyString => false
                    end
  end.

(** [db.scan_iter(match=pattern)]: every stored key that matches, in the
    store's own enumeration order, for a scan that returns each key once
    (a keyspace that is not rehashed during the scan). *)
Definition scan_iter (pattern : string) : M (list string) :=
  fun w => (inr (filter (fun k => glob_match pattern k = true)
                        (map fst (map_to_list (redis w)))), w).

(** *** The session dict of the signed cookie *)

Definition session_get (key : string) : M (option bool) :=
  fun w => (inr (session w !! key), w).

Definition session_set (key : string) (v : bool) : M unit :=
  fun w => (inr tt, set_session (<[key := v]> (session w)) w).

Definition session_clear : M unit :=
  fun w => (inr tt, set_session ∅ w).

(** Truth value of [d.get(key)]: [None] and [False] are falsy. *)
Definition truthy (v : option bool) : bool :=
  match v with Some true => true | _ => false end.

(** ** The program *)

(** What the module finds around it when it runs: the names bound in its
    global namespace, the library functions it calls, and the configuration
    taken from the process environment (lines 38-45).
    - [EmailStr_validate email] is [None] when [EmailStr.validate(email)]
      returns and [Some e] when it raises [e].
    - [bcrypt_hashpw pw] stands for [bcrypt.hashpw(pw, bcrypt.gensalt())] with
      the salt drawn at that call, and [bcrypt_checkpw pw h] for
      [bcrypt.checkpw(pw, h)]: its verdict, or the exception it raises (a
      [ValueError] when [h] is not a bcrypt hash). *)
Record runtime := {
  globals : list string;
  EmailStr_validate : string -> option exn;
  bcrypt_hashpw : string -> string;
  bcrypt_checkpw : string -> string -> exn + bool;
  ADMIN_USERNAME : string;
  ADMIN_PASSWORD : string;
  SMTP_SERVER : string;
  SMTP_PORT : Z;
  SMTP_USER : string;
  SMTP_PASSWORD : string
}.

(** How the SMTP relay answers one session: [Some m] at a step means that the
    step raises [smtplib.SMTPException] with message [m]. *)
Record smtp_behaviour := {
  connect_fails : option string;
  starttls_fails : option string;
  login_fails : option string;
  send_fails : option string
}.

(** What one request meets outside the store: the outcome of
    [get_redis_with_retry()] and the events (pings, warnings, sleeps) that
    call produced, the relay's behaviour per recipient, and the content of
    logs.txt ([None]: the file does not exist). *)
Record env := {
  conn : exn + unit;
  conn_trace : list event;
  smtp : option string -> smtp_behaviour;
  logs_txt : option string
}.

(** One answer of [redis_conn.ping()]. *)
Inductive ping_outcome :=
| Pong
| NotPong
| PingRaises (e : exn).

(** The names that lines 1-15 import and that the module-level assignments,
    classes and functions of src/main.py bind.  Python looks a free name up
    here and then in the builtins, which hold no [EmailMessage]. *)
Definition module_globals : list string :=
  [ "os"; "re"; "logging"; "redis"; "smtplib"; "bcrypt"; "time"; "datetime";
    "FastAPI"; "Request"; "Form"; "HTTPException"; "Depends"; "status";
    "HTMLResponse"; "RedirectResponse"; "StaticFiles"; "Jinja2Templates";
    "EmailStr"; "BaseModel"; "ValidationError"; "Optional";
    "SessionMiddleware"; "logger"; "app"; "templates"; "REDIS_URL";
    "REDIS_PASSWORD"; "ADMIN_USERNAME"; "ADMIN_PASSWORD"; "SMTP_SERVER";
    "SMTP_PORT"; "SMTP_USER"; "SMTP_PASSWORD"; "redis_pool"; "redis_conn";
    "UserRegistration"; "get_redis_with_retry"; "get_redis"; "validate_email";
    "send_email"; "initialize_admin_account"; "verify_admin"; "startup_event";
    "registration_form"; "register_user"; "admin_login_form"; "admin_login";
    "admin_panel"; "broadcast_message"; "view_logs"; "success_page";
    "admin_logout" ].

(** The rendering of a Python value that may be [None] inside an f-string. *)
Definition fmt (v : option string) : string := default "None" v.

(** *** get_redis_with_retry (lines 60-71)

    [pings i] is the answer to the [i]-th ping of this call.  The result is
    paired with the events so far; [None] means that the loop is still running
    when the fuel is spent. *)
Fixpoint retry_loop (fuel : nat) (max_retries : nat) (delay : Z)
  (pings : nat -> ping_outcome) (i : nat) (retries : nat) (tr : list event)
  : option (exn + unit) * list event :=
  match fuel with
  | O => (None, tr)
  | S fuel' =>
      if (retries <? max_retries)%nat then
        match pings i with
        | Pong => (Some (inr tt), tr ++ [Ping])
        | NotPong =>
            retry_loop fuel' max_retries delay pings (S i) retries (tr ++ [Ping])
        | PingRaises e =>
            if is_ConnectionError e then
              let retries' := S retries in
              let tr1 := tr ++ [Ping;
                Log WARNING ("Redis connection attempt "
                             +:+ PyStr.str (Z.of_nat retries')
                             +:+ " failed: " +:+ exn_str e)] in
              let tr2 := if (retries' <? max_retries)%nat
                         then tr1 ++ [Sleep delay] else tr1 in
              retry_loop fuel' max_retries delay pings (S i) retries' tr2
            else (Some (inl e), tr ++ [Ping])
        end
      else
        (Some (inl (RedisConnectionError
                      "Max retries reached. Could not connect to Redis.")), tr)
  end.

Definition get_redis_with_retry (fuel : nat) (pings : nat -> ping_outcome)
  : option (exn + unit) * list event :=
  retry_loop fuel 3 1 pings 0 0 [].

(** *** get_redis (lines 73-90)

    A dependency with [yield]: [r] is the outcome of [get_redis_with_retry()],
    and an exception the endpoint lets through is thrown back in at the
    [yield], hence inside the same [try]. *)
Definition get_redis {A} (r : exn + unit) (endpoint : M A) : M A :=
  try_except
    (match r with inl e => raise e | inr _ => endpoint end)
    is_RedisError
    (fun e =>
       if is_AuthenticationError e then
         exec log ERROR "Redis authentication failed. Please check password.";
         raise (HTTPException 500
            "Database authentication failed. Please check Redis credentials.")
       else if is_ConnectionError e then
         exec log ERROR ("Redis connection error: " +:+ exn_str e);
         raise (HTTPException 500
            "Database connection failed. Please check Redis credentials.")
       else
         exec log ERROR ("Redis error: " +:+ exn_str e);
         raise (HTTPException 500 "Database operation failed")).

(** A form field that the client filled in. *)
Definition filled (s : string) : bool :=
  match s with EmptyString => false | _ => true end.

(** The answer of the framework to a request whose [Form(...)] field is
    missing or empty. *)
Definition unprocessable : response :=
  ErrorResponse 422 "Unprocessable Entity".

(** The events of a call that the world records, in order. *)
Definition play (evs : list event) : M unit := for_each evs event_.

(** A route whose signature has [Depends(get_redis)] and [Form(...)] fields:
    the dependency runs first, with the events of its retry loop; then a
    form with an empty required field is answered 422 and the handler body
    does not run. *)
Definition with_store (e : env) (fields : list string) (body : M response)
  : M response :=
  exec play (conn_trace e);
  get_redis (conn e)
    (if forallb filled fields then body else ret unprocessable).

Section Program.

Context (rt : runtime).

Definition name_bound (n : string) : bool :=
  bool_decide (n ∈ globals rt).

(** *** validate_email (lines 92-97) *)
Definition validate_email (email : string) : M bool :=
  match EmailStr_validate rt email with
  | None => ret true
  | Some ValidationError => ret false
  | Some e => raise e
  end.

(** *** send_email (lines 99-114)

    Line 100 looks [EmailMessage] up in the module namespace.  The branch
    after a successful lookup covers header values without line breaks (the
    assignments of lines 101-103 raise [ValueError] on others) and failures
    that smtplib reports as [SMTPException]; an [OSError] of the connect is
    not in it.  In the module as it is that branch is never reached. *)

Definition step (e : event) (fails : option string) : M unit :=
  exec event_ e;
  match fails with
  | Some m => raise (SMTPException m)
  | None => ret tt
  end.

(** [with smtplib.SMTP(host, port) as server: ...]: when the constructor
    raises there is no block to leave; otherwise leaving it quits and closes
    the session, also on an exception. *)
Definition smtp_session (b : smtp_behaviour) (msg : EmailMessage) : M unit :=
  exec step (SmtpConnect (SMTP_SERVER rt) (SMTP_PORT rt)) (connect_fails b);
  finally
    (exec step SmtpStartTLS (starttls_fails b);
     exec step (SmtpLogin (SMTP_USER rt) (SMTP_PASSWORD rt)) (login_fails b);
     step (SmtpSendMessage msg) (send_fails b))
    (event_ SmtpQuit).

Definition send_email (e : env) (to : option string) (subject body : string)
  : M unit :=
  if name_bound "EmailMessage" then
    let msg := {| Subject := subject; From := SMTP_USER rt;
                  To := to; content := body |} in
    try_except
      (exec smtp_session (smtp e to) msg;
       log INFO ("Email sent to " +:+ fmt to))
      is_SMTPException
      (fun ex =>
         exec log ERROR ("Email sending failed: " +:+ exn_str ex);
         raise (HTTPException 500 ("Email sending failed: " +:+ exn_str ex)))
  else raise (NameError "EmailMessage").

(** *** initialize_admin_account (lines 116-123) *)
Definition initialize_admin_account : M unit :=
  do present <- r_exists "admin:account";
  if negb present then
    let hashed_pw := bcrypt_hashpw rt (ADMIN_PASSWORD rt) in
    exec hset "admin:account"
           [("username", ADMIN_USERNAME rt); ("password", hashed_pw)];
    log INFO "Admin account initialized"
  else ret tt.

(** *** startup_event (lines 138-151); [ping] is the answer to its one ping. *)
Definition startup_event (ping : ping_outcome) : M unit :=
  try_except
    (exec event_ Ping;
     exec match ping with
          | Pong => ret tt
          | NotPong => raise (RedisConnectionError "Redis connection failed")
          | PingRaises e => raise e
          end;
     exec initialize_admin_account;
     log INFO "Redis connection established successfully")
    is_ConnectionError
    (fun e =>
       if is_AuthenticationError e then
         exec log ERROR "Redis authentication failed. Please check password.";
         raise (RuntimeError "Redis authentication failed")
       else
         exec log ERROR ("Redis connection failed: " +:+ exn_str e);
         raise (RuntimeError "Redis connection failed")).

(** *** verify_admin (lines 125-136) *)
Definition verify_admin (username password : string) : M bool :=
  do admin_data <- hgetall "admin:account";
  if bool_decide (admin_data = ∅) then ret false
  else
    let stored_user := default "" (admin_data !! "username") in
    let stored_pw := default "" (admin_data !! "password") in
    if bool_decide (username = stored_user)
    then match bcrypt_checkpw rt password stored_pw with
         | inr verdict => ret verdict
         | inl e => raise e
         end
    else ret false.

(** *** register_user (lines 157-189) *)
Definition register_user (name email : string) : M response :=
  try_except
    (do valid <- validate_email email;
     if negb valid then
       ret (TemplateResponse "register.html"
              [("error", "Invalid email format")] 400)
     else
       do taken <- hexists "users:emails" email;
       if taken then
         ret (TemplateResponse "register.html"
                [("error", "Email already registered")] 400)
       else
         do user_id <- incr "users:count";
         let user_key := "user:" +:+ PyStr.str user_id in
         exec hset user_key
                [("name", PyStr.strip name);
                 ("email", PyStr.strip (PyStr.lower email));
                 ("id", PyStr.str user_id)];
         exec hset "users:emails"
                [(PyStr.strip (PyStr.lower email), PyStr.str user_id)];
         exec log INFO ("New user registered: " +:+ email);
         ret (RedirectResponse "/success" 303))
    is_RedisError
    (fun e =>
       exec log ERROR ("Registration error: " +:+ exn_str e);
       raise (HTTPException 500 "Database operation failed")).

(** *** admin_login (lines 195-211) *)
Definition admin_login (username password : string) : M response :=
  do ok <- verify_admin username password;
  if ok then
    exec session_set "admin_logged_in" true;
    exec log INFO "Admin logged in successfully";
    ret (RedirectResponse "/admin" 303)
  else
    exec log WARNING "Failed admin login attempt";
    ret (TemplateResponse "admin_login.html"
           [("error", "Invalid credentials")] 401).

(** *** admin_panel (lines 213-218) *)
Definition admin_panel : M response :=
  do flag <- session_get "admin_logged_in";
  if negb (truthy flag) then ret (RedirectResponse "/admin/login" 303)
  else ret (TemplateResponse "admin.html" [] 200).

(** *** broadcast_message (lines 220-253) *)

(** The dict built per key at lines 233-236; [.get] gives [None] for a field
    the hash lacks. *)
Definition read_user (key : string) : M (option string * option string) :=
  do user <- hgetall key;
  ret (user !! "name", user !! "email").

Definition send_to (e : env) (message : string)
  (user : option string * option string) : M unit :=
  match user.1 with
  | None => raise (TypeError "replace() argument 2 must be str, not None")
  | Some name =>
      let personalized_message :=
        PyStr.replace message "{{Student_name}}" name in
      send_email e user.2 "New Announcement" personalized_message
  end.

Definition broadcast_message (e : env) (message : string) : M response :=
  do flag <- session_get "admin_logged_in";
  if negb (truthy flag) then ret (RedirectResponse "/admin/login" 303)
  else
    try_except
      (do keys <- scan_iter "user:*";
       do users <- collect keys read_user;
       exec for_each users (send_to e message);
       exec log INFO ("Broadcast message sent to "
                      +:+ PyStr.str (Z.of_nat (length users)) +:+ " users");
       ret (TemplateResponse "admin.html"
              [("success", "Message broadcasted successfully")] 200))
      (fun ex => is_RedisError ex || is_AttributeError ex)
      (fun ex =>
         exec log ERROR ("Broadcast error: " +:+ exn_str ex);
         raise (HTTPException 500 "Failed to process broadcast")).

(** *** view_logs (lines 255-269) *)

(** [open("logs.txt", "r")] followed by [f.read()]. *)
Definition read_logs (e : env) : M string :=
  match logs_txt e with
  | Some text => ret text
  | None => raise FileNotFoundError
  end.

Definition view_logs (e : env) : M response :=
  do flag <- session_get "admin_logged_in";
  if negb (truthy flag) then ret (RedirectResponse "/admin/login" 303)
  else
    try_except
      (do logs <- read_logs e;
       ret (TemplateResponse "logs.html" [("logs", logs)] 200))
      is_FileNotFoundError
      (fun _ =>
         exec log ERROR "Log file not found";
         raise (HTTPException 404 "Logs not available")).

(** *** admin_logout (lines 275-279) *)
Definition admin_logout : M response :=
  exec session_clear;
  exec log INFO "Admin logged out";
  ret (RedirectResponse "/admin/login" 303).

(** *** The routes *)

Inductive request :=
| GET_root
| POST_root (name email : string)
| GET_admin_login
| POST_admin_login (username password : string)
| GET_admin
| POST_admin_broadcast (message : string)
| GET_logs
| GET_success
| POST_admin_logout.

(** The endpoint of a request, with what its signature asks of the framework
    done first: [with_store] resolves [Depends(get_redis)] and checks the
    [Form(...)] fields. *)
Definition endpoint (e : env) (r : request) : M response :=
  match r with
  | GET_root => ret (TemplateResponse "register.html" [] 200)
  | POST_root name email =>
      with_store e [name; email] (register_user name email)
  | GET_admin_login => ret (TemplateResponse "admin_login.html" [] 200)
  | POST_admin_login username password =>
      with_store e [username; password] (admin_login username password)
  | GET_admin => admin_panel
  | POST_admin_broadcast message =>
      with_store e [message] (broadcast_message e message)
  | GET_logs => view_logs e
  | GET_success => ret (TemplateResponse "success.html" [] 200)
  | POST_admin_logout => admin_logout
  end.

(** The framework turns an [HTTPException] into a response with its status,
    and any other exception into a plain 500. *)
Definition answer (r : exn + response) : response :=
  match r with
  | inr x => x
  | inl (HTTPException s d) => ErrorResponse s d
  | inl _ => ErrorResponse 500 "Internal Server Error"
  end.

Definition handle (e : env) (r : request) (w : world) : response * world :=
  let '(x, w') := endpoint e r w in (answer x, w').

(** A client's requests served one after the other. *)
Fixpoint serve (rs : list (env * request)) (w : world)
  : list response * world :=
  match rs with
  | [] => ([], w)
  | (e, r) :: rs' =>
      let '(x, w1) := handle e r w in
      let '(xs, w2) := serve rs' w1 in
      (x :: xs, w2)
  end.

End Program.

(** ** Concrete collaborators, to run the program on explicit inputs *)

Fixpoint split_at (c : ascii) (s : string) : option (string * string) :=
  match s with
  | EmptyString => None
  | String a s' =>
      if ascii_dec a c then Some (EmptyString, s')
      else match split_at c s' with
           | Some (l, r) => Some (String a l, r)
           | None => None
           end
  end.

Fixpoint has_char (p : ascii -> bool) (s : string) : bool :=
  match s with
  | EmptyString => false
  | String a s' => p a || has_char p s'
  end.

Definition nonempty (s : string) : bool :=
  match s with EmptyString => false | _ => true end.

Definition open_brace (a : ascii) : bool :=
  if ascii_dec a "{" then true else false.

(** Modelled from the spec: pydantic's [EmailStr] validator is not under src/;
    section 4.2 step 1 asks for the "standard email-address grammar".  The
    model accepts [local@label.rest]: exactly one "@", no whitespace, a
    non-empty local part and a dotted domain; anything else raises pydantic's
    [EmailError], a [ValueError] and not the [ValidationError] that
    [validate_email] catches. *)
Definition email_grammar (s : string) : bool :=
  match split_at "@" s with
  | Some (l, d) =>
      nonempty l
      && negb (has_char (fun a => if ascii_dec a "@" then true else false) d)
      && negb (has_char PyStr.isspace s)
      && match split_at "." d with
         | Some (a, b) => nonempty a && nonempty b
         | None => false
         end
  | None => false
  end.

Definition validate_model (s : string) : option exn :=
  if email_grammar s then None
  else Some (ValueError "value is not a valid email address").

(** Modelled from the spec: bcrypt is not under src/; section 2 describes the
    Password Hasher as "one-way salted hash + verify".  A transparent stand-in:
    the hash of [pw] is ["$2b$" ++ pw]. *)
Definition hashpw_model (password : string) : string := "$2b$" +:+ password.

Definition checkpw_model (password hashed : string) : exn + bool :=
  if PyStr.startswith "$2b$" hashed
  then inr (String.eqb hashed (hashpw_model password))
  else inl (ValueError "Invalid salt").

(** The module as it is in src/main.py, with the defaults of lines 40-45. *)
Definition shipped : runtime := {|
  globals := module_globals;
  EmailStr_validate := validate_model;
  bcrypt_hashpw := hashpw_model;
  bcrypt_checkpw := checkpw_model;
  ADMIN_USERNAME := "admin";
  ADMIN_PASSWORD := "securepassword";
  SMTP_SERVER := "smtp.example.com";
  SMTP_PORT := 587;
  SMTP_USER := "user@example.com";
  SMTP_PASSWORD := "smtppassword"
|}.

(** The same module with [EmailMessage] bound in its namespace. *)
Definition with_EmailMessage (rt : runtime) : runtime := {|
  globals := "EmailMessage" :: globals rt;
  EmailStr_validate := EmailStr_validate rt;
  bcrypt_hashpw := bcrypt_hashpw rt;
  bcrypt_checkpw := bcrypt_checkpw rt;
  ADMIN_USERNAME := ADMIN_USERNAME rt;
  ADMIN_PASSWORD := ADMIN_PASSWORD rt;
  SMTP_SERVER := SMTP_SERVER rt;
  SMTP_PORT := SMTP_PORT rt;
  SMTP_USER := SMTP_USER rt;
  SMTP_PASSWORD := SMTP_PASSWORD rt
|}.

Definition relay_ok : smtp_behaviour := {|
  connect_fails := None; starttls_fails := None;
  login_fails := None; send_fails := None
|}.

(** Store reachable, relay accepting everything, a log file with one line. *)
Definition env_up : env := {|
  conn := inr tt;
  conn_trace := [Ping];
  smtp := fun _ => relay_ok;
  logs_txt := Some "Admin logged in successfully"
|}.

(** Store unreachable: the three connection attempts failed. *)
Definition env_down : env := {|
  conn := inl (RedisConnectionError
                 "Max retries reached. Could not connect to Redis.");
  conn_trace :=
    (get_redis_with_retry 4
       (fun _ => PingRaises (RedisConnectionError "Connection refused"))).2;
  smtp := fun _ => relay_ok;
  logs_txt := None
|}.

Definition empty_world : world :=
  {| redis := ∅; session := ∅; trace := [] |}.

(** The store as [startup_event] leaves it on first run: the administrator
    account and nothing else. *)
Definition seeded_world : world := {|
  redis := redis (startup_event shipped Pong empty_world).2;
  session := ∅;
  trace := []
|}.

Definition flag : string := "admin_logged_in".

Definition logged_in (w : world) : bool := truthy (session w !! flag).










(** A field of the hash stored under [key], as [HGET] reads it. *)
Definition field (w : world) (key f : string) : option string :=
  match redis w !! key with
  | Some (RHash h) => h !! f
  | _ => None
  end.

Definition is_ping (ev : event) : bool :=
  match ev with Ping => true | _ => false end.

Definition is_smtp (ev : event) : bool :=
  match ev with
  | SmtpConnect _ _ | SmtpStartTLS | SmtpLogin _ _
  | SmtpSendMessage _ | SmtpQuit => true
  | _ => false
  end.

(** The number of connection attempts recorded in a trace. *)
Definition attempts (tr : list event) : nat :=
  length (filter (fun ev => is_ping ev = true) tr).

(** A store that answers every ping with something other than PONG. *)
Definition never_pong : nat -> ping_outcome := fun _ => NotPong.

(** A store that refuses every connection. *)
Definition always_refused : nat -> ping_outcome :=
  fun _ => PingRaises (RedisConnectionError "Connection refused").

(** The events of one mail session that goes through. *)
Definition session_events (rt : runtime) (msg : EmailMessage) : list event :=
  [ SmtpConnect (SMTP_SERVER rt) (SMTP_PORT rt); SmtpStartTLS;
    SmtpLogin (SMTP_USER rt) (SMTP_PASSWORD rt); SmtpSendMessage msg;
    SmtpQuit ].

(** The first failing step of a relay, if any. *)
Definition first_failure (b : smtp_behaviour) : option string :=
  match connect_fails b, starttls_fails b, login_fails b, send_fails b with
  | Some m, _, _, _ => Some m
  | None, Some m, _, _ => Some m
  | None, None, Some m, _ => Some m
  | None, None, None, r => r
  end.

Definition is_connect (ev : event) : bool :=
  match ev with SmtpConnect _ _ => true | _ => false end.

(** The number of SMTP connections recorded in a trace. *)
Definition connects (tr : list event) : nat :=
  length (filter (fun ev => is_connect ev = true) tr).

Definition messages_sent (tr : list event) : list EmailMessage :=
  omap (fun ev => match ev with SmtpSendMessage m => Some m | _ => None end) tr.

(** ** The registry as the store holds it *)

(** The normalized email that [register_user] writes. *)
Definition norm (email : string) : string := PyStr.strip (PyStr.lower email).

Definition user_key (id : Z) : string := "user:" +:+ PyStr.str id.

(** The value of the id counter; 0 before the first registration. *)
Definition counter (d : gmap string rvalue) : Z :=
  match d !! "users:count" with
  | Some (RString s) => default 0 (PyStr.int_of_str s)
  | _ => 0
  end.

(** The EmailIndex: the hash under "users:emails". *)
Definition index (d : gmap string rvalue) : gmap string string :=
  match d !! "users:emails" with
  | Some (RHash h) => h
  | _ => ∅
  end.

(** The hash written at lines 179-183. *)
Definition new_record (name email : string) (id : Z) : gmap string string :=
  set_fields [("name", PyStr.strip name); ("email", norm email);
              ("id", PyStr.str id)] ∅.

(** The store after lines 177-184 have run. *)
Definition registered (d : gmap string rvalue) (name email : string)
  : gmap string rvalue :=
  let id := counter d + 1 in
  <["users:emails" := RHash (<[norm email := PyStr.str id]> (index d))]>
    (<[user_key id := RHash (new_record name email id)]>
       (<["users:count" := RString (PyStr.str id)]> d)).

(** The stores that registrations build: the counter is absent or a positive
    64-bit integer, the index is a hash, the keys under "user:" are the records
    numbered up to the counter, every record's email is an index key, and
    every index entry names a record that carries its email. *)
Record store_ok (d : gmap string rvalue) : Prop := {
  ok_count :
    d !! "users:count" = None
    \/ exists n, 0 < n <= INT64_MAX
                 /\ d !! "users:count" = Some (RString (PyStr.str n));
  ok_index : forall s, d !! "users:emails" <> Some (RString s);
  ok_prefix :
    forall k, PyStr.startswith "user:" k = true -> is_Some (d !! k) ->
      exists id, k = user_key id /\ 1 <= id <= counter d;
  ok_record :
    forall id v, d !! user_key id = Some v ->
      exists h em, v = RHash h /\ h !! "email" = Some em
                   /\ is_Some (h !! "name")
                   /\ is_Some (index d !! em);
  ok_entry :
    forall em uid, index d !! em = Some uid ->
      exists id h, uid = PyStr.str id
                   /\ d !! user_key id = Some (RHash h)
                   /\ h !! "email" = Some em
}.

(** What a registration answers. *)
Definition registered_ok : response := RedirectResponse "/success" 303.

Definition invalid_email : response :=
  TemplateResponse "register.html" [("error", "Invalid email format")] 400.

Definition already_registered : response :=
  TemplateResponse "register.html" [("error", "Email already registered")] 400.

(** What [register_user] does on a store of the shape above, case by case. *)
Definition register_user_result (rt : runtime) (name email : string)
  (w : world) : (exn + response) * world :=
  match EmailStr_validate rt email with
  | Some ValidationError => (inr invalid_email, w)
  | Some e =>
      if is_RedisError e
      then (inl (HTTPException 500 "Database operation failed"),
            emit (Log ERROR ("Registration error: " +:+ exn_str e)) w)
      else (inl e, w)
  | None =>
      if bool_decide (is_Some (index (redis w) !! email))
      then (inr already_registered, w)
      else if counter (redis w) <? INT64_MAX
      then (inr registered_ok,
            emit (Log INFO ("New user registered: " +:+ email))
              (set_redis (registered (redis w) name email) w))
      else (inl (HTTPException 500 "Database operation failed"),
            emit (Log ERROR ("Registration error: "
                             +:+ "increment or decrement would overflow")) w)
  end.

(** The keys that [scan_iter("user:*")] yields, in its order. *)
Definition user_keys (w : world) : list string :=
  filter (fun k => glob_match "user:*" k = true)
         (map fst (map_to_list (redis w))).

Definition add_trace (evs : list event) (w : world) : world :=
  {| redis := redis w; session := session w; trace := trace w ++ evs |}.

(** The message a broadcast of [message] builds for one user. *)
Definition mail_of (rt : runtime) (message : string)
  (user : option string * option string) : EmailMessage :=
  {| Subject := "New Announcement";
     From := SMTP_USER rt;
     To := user.2;
     content := PyStr.replace message "{{Student_name}}" (default "" user.1) |}.

Definition mail_events (rt : runtime) (message : string)
  (user : option string * option string) : list event :=
  session_events rt (mail_of rt message user)
  ++ [Log INFO ("Email sent to " +:+ fmt user.2)].

(** The name and email that line 232-236 read under [key]. *)
Definition user_at (w : world) (key : string)
  : option string * option string :=
  (field w key "name", field w key "email").

(** An administrator logged in, then Ann and Bo registered. *)
Definition two_users : world :=
  (serve shipped
     [ (env_up, POST_admin_login "admin" "securepassword");
       (env_up, POST_root "Ann" "ann@example.org");
       (env_up, POST_root "Bo" "bo@example.org") ]
     seeded_world).2.

(** One address registered twice, the second time in upper case. *)
Definition same_email_twice : list (env * request) :=
  [ (env_up, POST_root "Ann" "ann@example.org");
    (env_up, POST_root "Ann" "ANN@EXAMPLE.ORG") ].

(** ** What a computation leaves alone *)

(** [keeps R m]: whatever [m] does, the world it leaves is [R]-related to
    the one it found. *)
Definition keeps {A} (R : world -> world -> Prop) (m : M A) : Prop :=
  forall w, R w (m w).2.

Definition same_session (w w' : world) : Prop := session w' = session w.
Definition same_redis (w w' : world) : Prop := redis w' = redis w.

Class Frame (R : world -> world -> Prop) := {
  frame_refl : forall w, R w w;
  frame_trans : forall w1 w2 w3, R w1 w2 -> R w2 w3 -> R w1 w3;
  frame_emit : forall ev w, R w (emit ev w)
}.



(** ** Measures on traces and responses *)

(** The durations of the sleeps recorded in a trace, in order. *)
Definition sleeps (tr : list event) : list Z :=
  omap (fun ev => match ev with Sleep s => Some s | _ => None end) tr.

(** The log lines of a given level recorded in a trace, in order. *)
Definition logged (lvl : log_level) (tr : list event) : list string :=
  omap (fun ev => match ev, lvl with
                  | Log INFO m, INFO | Log WARNING m, WARNING
                  | Log ERROR m, ERROR => Some m
                  | _, _ => None
                  end) tr.

(** The first [k] pings raise connection-class errors. *)
Definition refused_before (pings : nat -> ping_outcome) (k : nat) : Prop :=
  forall i, (i < k)%nat ->
    exists e, pings i = PingRaises e /\ is_ConnectionError e = true.

(** A computation never raises an exception of the Redis classes. *)
Definition no_redis_error {A} (x : exn + A) : Prop :=
  match x with
  | inl e => is_RedisError e = false
  | inr _ => True
  end.

(** The administrator account is as it was. *)
Definition same_account (w w' : world) : Prop :=
  redis w' !! "admin:account" = redis w !! "admin:account".

(** Every stored email, in a record or as an index key, is its own normal
    form. *)
Definition emails_normalized (w : world) : Prop :=
  (forall id em, field w (user_key id) "email" = Some em -> norm em = em)
  /\ (forall em uid, index (redis w) !! em = Some uid -> norm em = em).


(** A store that refuses the first connection and answers the second. *)
Definition refused_once : nat -> ping_outcome :=
  fun i => match i with
           | O => PingRaises (RedisConnectionError "Connection refused")
           | _ => Pong
           end.

(** A store that refuses the first connection and times out on the second. *)
Definition refused_then_timeout : nat -> ping_outcome :=
  fun i => match i with
           | O => PingRaises (RedisConnectionError "Connection refused")
           | _ => PingRaises (RedisTimeoutError "Timeout reading from socket")
           end.


(** * Properties *)

(** ** Running the monad *)

Lemma bind_ret_l {A B} (a : A) (k : A -> M B) w : bind (ret a) k w = k a w.
Proof. reflexivity. Qed.

Lemma bind_inr {A B} (m : M A) (k : A -> M B) w a w' :
  m w = (inr a, w') -> bind m k w = k a w'.
Proof. intros H. unfold bind. by rewrite H. Qed.

Lemma bind_inl {A B} (m : M A) (k : A -> M B) w e w' :
  m w = (inl e, w') -> bind m k w = (inl e, w').
Proof. intros H. unfold bind. by rewrite H. Qed.

Lemma play_run evs w : play evs w = (inr tt, add_trace evs w).
Proof.
  unfold play. revert w. induction evs as [|ev evs IH]; intros w.
  - destruct w. unfold add_trace. simpl. by rewrite app_nil_r.
  - cbn [for_each]. unfold bind at 1, event_ at 1. rewrite IH.
    unfold add_trace, emit. simpl. by rewrite <- app_assoc.
Qed.

(** A route with the store dependency: the retry events are recorded, then
    [get_redis] runs around the form check and the handler. *)
Lemma with_store_eq e fields body w :
  with_store e fields body w
  = get_redis (conn e)
      (if forallb filled fields then body else ret unprocessable)
      (add_trace (conn_trace e) w).
Proof. unfold with_store. by rewrite (bind_inr _ _ _ _ _ (play_run _ w)). Qed.

(** ** Python strings and Redis patterns *)

Example lower_ex : PyStr.lower "Ann.LEE@Example.ORG" = "ann.lee@example.org".
Proof. reflexivity. Qed.

Example strip_ex : PyStr.strip "  Ann Lee  " = "Ann Lee".
Proof. reflexivity. Qed.

Example replace_ex :
  PyStr.replace "Hi {{Student_name}}, {{Student_name}}!" "{{Student_name}}" "Bo"
  = "Hi Bo, Bo!".
Proof. reflexivity. Qed.

Example replace_empty_ex : PyStr.replace "ab" "" "-" = "-a-b-".
Proof. reflexivity. Qed.

Example str_ex :
  PyStr.str 12 = "12" /\ PyStr.int_of_str "12" = Some 12
  /\ PyStr.int_of_str "012" = None.
Proof. repeat split; reflexivity. Qed.

Example glob_ex :
  glob_match "user:*" "user:12" = true
  /\ glob_match "user:*" "users:emails" = false
  /\ glob_match "user:*" "users:count" = false
  /\ glob_match "user:*" "admin:account" = false.
Proof. repeat split; reflexivity. Qed.

Example email_grammar_ex :
  email_grammar "ann@example.org" = true
  /\ email_grammar "ANN@EXAMPLE.ORG" = true
  /\ email_grammar "ann" = false
  /\ email_grammar "ann@@example.org" = false.
Proof. repeat split; reflexivity. Qed.

(** A text without "{" holds no placeholder and is left as it is. *)
Lemma replace_plain s name :
  has_char open_brace s = false ->
  PyStr.replace s "{{Student_name}}" name = s.
Proof.
  unfold PyStr.replace. induction s as [|a s IH]; intros Hs; [done|].
  simpl in Hs. apply orb_false_elim in Hs as [Ha Hs].
  unfold open_brace in Ha. cbn [PyStr.replace_scan PyStr.startswith].
  destruct (ascii_dec "{" a) as [<-|_]; [by destruct (ascii_dec "{" "{")|].
  by rewrite IH.
Qed.

(** X21. Each occurrence of the placeholder is replaced, from left to right,
    and the name put in is not scanned again: a text without "{", then the
    placeholder, then the rest, becomes that text, then the name, then the
    rest treated in the same way. *)
Lemma replace_placeholder pre rest name :
  has_char open_brace pre = false ->
  PyStr.replace (pre +:+ "{{Student_name}}" +:+ rest) "{{Student_name}}" name
  = pre +:+ name +:+ PyStr.replace rest "{{Student_name}}" name.
Proof.
  unfold PyStr.replace. induction pre as [|a pre IH]; intros Hs.
  { reflexivity. }
  simpl in Hs. apply orb_false_elim in Hs as [Ha Hs].
  unfold open_brace in Ha.
  change (String a pre +:+ "{{Student_name}}" +:+ rest)
    with (String a (pre +:+ "{{Student_name}}" +:+ rest)).
  cbn [PyStr.replace_scan PyStr.startswith].
  destruct (ascii_dec "{" a) as [<-|_]; [by destruct (ascii_dec "{" "{")|].
  by rewrite IH.
Qed.

(** ** Admin login *)




(** ** Frame rules: what a computation leaves alone *)

#[export] Instance same_session_frame : Frame same_session.
Proof. split; unfold same_session; intros; simpl; congruence. Qed.

#[export] Instance same_redis_frame : Frame same_redis.
Proof. split; unfold same_redis; intros; simpl; congruence. Qed.

Section Frames.

Context (R : world -> world -> Prop) `{!Frame R}.

Lemma keeps_ret {A} (a : A) : keeps R (ret a).
Proof. intros w. apply frame_refl. Qed.

Lemma keeps_raise {A} e : keeps R (@raise A e).
Proof. intros w. apply frame_refl. Qed.

Lemma keeps_bind {A B} (m : M A) (k : A -> M B) :
  keeps R m -> (forall a, keeps R (k a)) -> keeps R (bind m k).
Proof.
  intros Hm Hk w. unfold bind. specialize (Hm w).
  destruct (m w) as [[e|a] w1]; simpl in *; [done|].
  eapply frame_trans; [exact Hm | apply Hk].
Qed.

Lemma keeps_try_except {A} (m : M A) c h :
  keeps R m -> (forall e, keeps R (h e)) -> keeps R (try_except m c h).
Proof.
  intros Hm Hh w. unfold try_except. specialize (Hm w).
  destruct (m w) as [[e|a] w1]; simpl in *; [|done].
  destruct (c e); [|done]. eapply frame_trans; [exact Hm | apply Hh].
Qed.

Lemma keeps_finally {A} (m : M A) fin :
  keeps R m -> keeps R fin -> keeps R (finally m fin).
Proof.
  intros Hm Hf w. unfold finally. specialize (Hm w).
  destruct (m w) as [r w1]; simpl in *. specialize (Hf w1).
  destruct (fin w1) as [[e|[]] w2]; simpl in *;
    eapply frame_trans; eauto.
Qed.

Lemma keeps_log lvl msg : keeps R (log lvl msg).
Proof. intros w. apply frame_emit. Qed.

Lemma keeps_event ev : keeps R (event_ ev).
Proof. intros w. apply frame_emit. Qed.

Lemma keeps_for_each {A} (l : list A) body :
  (forall x, keeps R (body x)) -> keeps R (for_each l body).
Proof.
  intros Hb. induction l as [|x l IH]; simpl.
  - apply keeps_ret.
  - apply keeps_bind; [apply Hb | intros _; exact IH].
Qed.

Lemma keeps_collect {A B} (l : list A) (body : A -> M B) :
  (forall x, keeps R (body x)) -> keeps R (collect l body).
Proof.
  intros Hb. induction l as [|x l IH]; simpl.
  - apply keeps_ret.
  - apply keeps_bind; [apply Hb | intros y].
    apply keeps_bind; [exact IH | intros ys; apply keeps_ret].
Qed.

Lemma keeps_r_exists k : keeps R (r_exists k).
Proof. intros w. apply frame_refl. Qed.

Lemma keeps_hexists k f : keeps R (hexists k f).
Proof.
  intros w. unfold hexists.
  destruct (redis w !! k) as [[?|?]|]; apply frame_refl.
Qed.

Lemma keeps_hgetall k : keeps R (hgetall k).
Proof.
  intros w. unfold hgetall.
  destruct (redis w !! k) as [[?|?]|]; apply frame_refl.
Qed.

Lemma keeps_scan_iter p : keeps R (scan_iter p).
Proof. intros w. apply frame_refl. Qed.

Lemma keeps_session_get k : keeps R (session_get k).
Proof. intros w. apply frame_refl. Qed.

End Frames.

Lemma keeps_hset_session k m : keeps same_session (hset k m).
Proof. intros w. unfold hset. by destruct (redis w !! k) as [[?|?]|]. Qed.

Lemma keeps_incr_session k : keeps same_session (incr k).
Proof.
  intros w. unfold incr. destruct (redis w !! k) as [[s|?]|]; try done.
  destruct (PyStr.int_of_str s); [|done].
  destruct (_ || _); [done|]. by destruct (_ =? _).
Qed.

Lemma keeps_session_set_redis k v : keeps same_redis (session_set k v).
Proof. by intros w. Qed.

Lemma keeps_session_clear_redis : keeps same_redis session_clear.
Proof. by intros w. Qed.

(** Breaks a [keeps] goal down along the structure of the computation. *)
Ltac keeps_step :=
  first
    [ apply keeps_bind | apply keeps_ret | apply keeps_raise
    | apply keeps_try_except | apply keeps_finally
    | apply keeps_log | apply keeps_event
    | apply keeps_for_each | apply keeps_collect
    | apply keeps_r_exists | apply keeps_hexists | apply keeps_hgetall
    | apply keeps_scan_iter | apply keeps_session_get
    | apply keeps_hset_session | apply keeps_incr_session
    | apply keeps_session_set_redis | apply keeps_session_clear_redis
    | match goal with
      | |- keeps _ (if ?b then _ else _) => destruct b
      | |- keeps _ (match ?x with _ => _ end) => destruct x
      | |- forall _, _ => intro
      end ].

Ltac keeps_auto := repeat (keeps_step; try typeclasses eauto).

Section Handlers.

Context (rt : runtime).

Lemma keeps_send_email R `{!Frame R} e to subject body :
  keeps R (send_email rt e to subject body).
Proof. unfold send_email, smtp_session, step. keeps_auto. Qed.

Lemma keeps_verify_admin R `{!Frame R} u p : keeps R (verify_admin rt u p).
Proof. unfold verify_admin. keeps_auto. Qed.

Lemma register_user_session name email :
  keeps same_session (register_user rt name email).
Proof. unfold register_user, validate_email. keeps_auto. Qed.

Lemma broadcast_message_frame R `{!Frame R} e message :
  keeps R (broadcast_message rt e message).
Proof.
  unfold broadcast_message, read_user, send_to. keeps_auto.
  apply keeps_send_email; typeclasses eauto.
Qed.

Lemma view_logs_frame R `{!Frame R} e : keeps R (view_logs e).
Proof. unfold view_logs, read_logs. keeps_auto. Qed.

Lemma admin_panel_frame R `{!Frame R} : keeps R (admin_panel).
Proof. unfold admin_panel. keeps_auto. Qed.

Lemma get_redis_frame R `{!Frame R} {A} r (m : M A) :
  keeps R m -> keeps R (get_redis r m).
Proof. intros Hm. unfold get_redis. keeps_auto. exact Hm. Qed.

Lemma with_store_frame R `{!Frame R} e fields (m : M response) :
  keeps R m -> keeps R (with_store e fields m).
Proof.
  intros Hm. unfold with_store, play.
  apply keeps_bind; [typeclasses eauto| |].
  - apply keeps_for_each; [typeclasses eauto|].
    intros ev. apply keeps_event; typeclasses eauto.
  - intros _. apply get_redis_frame; [typeclasses eauto|].
    destruct (forallb filled fields); [exact Hm|].
    apply keeps_ret; typeclasses eauto.
Qed.

Lemma admin_login_redis u p : keeps same_redis (admin_login rt u p).
Proof.
  unfold admin_login. apply keeps_bind; [typeclasses eauto | |].
  - apply keeps_verify_admin; typeclasses eauto.
  - keeps_auto.
Qed.

Lemma admin_logout_redis : keeps same_redis admin_logout.
Proof. unfold admin_logout. keeps_auto. Qed.

End Handlers.

(** ** The session flag *)

Lemma handle_snd rt e r w : (handle rt e r w).2 = (endpoint rt e r w).2.
Proof. unfold handle. by destruct (endpoint rt e r w). Qed.

Lemma handle_fst rt e r w :
  (handle rt e r w).1 = answer (endpoint rt e r w).1.
Proof. unfold handle. by destruct (endpoint rt e r w). Qed.

Lemma verify_admin_world rt u p w : (verify_admin rt u p w).2 = w.
Proof.
  unfold verify_admin, bind, hgetall.
  destruct (redis w !! "admin:account") as [[s|h]|]; simpl; try done.
  - destruct (bool_decide (h = ∅)); [done|].
    destruct (bool_decide (u = _)); [|done].
    by destruct (bcrypt_checkpw rt p _).
Qed.

(** [verify_admin] reads the store and nothing else. *)
Lemma verify_admin_redis rt u p w w' :
  redis w' = redis w -> (verify_admin rt u p w').1 = (verify_admin rt u p w).1.
Proof.
  intros Hs. unfold verify_admin, bind, hgetall. rewrite Hs.
  destruct (redis w !! "admin:account") as [[s|h]|]; simpl; try done.
  - destruct (bool_decide (h = ∅)); [done|].
    destruct (bool_decide (u = _)); [|done].
    by destruct (bcrypt_checkpw rt p _).
Qed.

Lemma verify_admin_at rt u p w w' :
  redis w' = redis w ->
  verify_admin rt u p w' = ((verify_admin rt u p w).1, w').
Proof.
  intros Hs. rewrite <- (verify_admin_redis rt u p w w' Hs).
  rewrite <- (verify_admin_world rt u p w') at 3.
  by destruct (verify_admin rt u p w').
Qed.

(** What [get_redis] leaves of a failed connection: an exception, the
    session as it was. *)
Lemma get_redis_down {A} ex (m : M A) w :
  session (get_redis (inl ex) m w).2 = session w
  /\ exists ex', (get_redis (inl ex) m w).1 = inl ex'.
Proof.
  unfold get_redis, try_except, raise.
  destruct (is_RedisError ex); [|by eauto].
  destruct (is_AuthenticationError ex); [by eauto|].
  destruct (is_ConnectionError ex); by eauto.
Qed.

Lemma logged_in_no_session w : session w = ∅ -> logged_in w = false.
Proof. unfold logged_in. intros ->. by rewrite lookup_empty. Qed.

Lemma logged_in_same w w' :
  session w' = session w -> logged_in w' = logged_in w.
Proof. unfold logged_in. by intros ->. Qed.

(** One request changes the session in one of three ways, and only the
    logout empties it. *)
Lemma handle_session_cases rt e r w :
  session (handle rt e r w).2 = session w
  \/ (r = POST_admin_logout /\ session (handle rt e r w).2 = ∅)
  \/ exists u p,
       r = POST_admin_login u p /\ conn e = inr tt
       /\ verify_admin rt u p w = (inr true, w)
       /\ (handle rt e r w).1 = RedirectResponse "/admin" 303
       /\ session (handle rt e r w).2 = <[flag := true]> (session w).
Proof.
  destruct r as [|name email| |u p| |message| | |].
  - by left.
  - left. rewrite handle_snd. simpl.
    apply (with_store_frame same_session), register_user_session.
  - by left.
  - assert (Hsame : forall w1 x,
              session w1 = session w ->
              endpoint rt e (POST_admin_login u p) w = (x, w1) ->
              session (handle rt e (POST_admin_login u p) w).2 = session w).
    { intros w1 x Hs Hrun. unfold handle. by rewrite Hrun. }
    set (w0 := add_trace (conn_trace e) w).
    assert (Hend : endpoint rt e (POST_admin_login u p) w
                   = get_redis (conn e)
                       (if filled u && filled p
                        then admin_login rt u p else ret unprocessable) w0).
    { cbn [endpoint]. rewrite with_store_eq. cbn [forallb].
      by rewrite andb_true_r. }
    destruct (conn e) as [ex|[]] eqn:Hc.
    { left. rewrite handle_snd, Hend.
      apply (get_redis_down ex _ w0). }
    destruct (filled u && filled p) eqn:Hf.
    2:{ left. by rewrite handle_snd, Hend. }
    pose proof (verify_admin_at rt u p w w0 eq_refl) as Hat.
    pose proof (verify_admin_world rt u p w) as Hw.
    destruct (verify_admin rt u p w) as [[ex|[|]] w1] eqn:Hv;
      simpl in Hw, Hat; subst w1.
    + left. rewrite handle_snd, Hend.
      unfold get_redis, try_except, admin_login.
      rewrite (bind_inl _ _ _ _ _ Hat).
      destruct (is_RedisError ex); [|done].
      destruct (is_AuthenticationError ex); [done|].
      by destruct (is_ConnectionError ex).
    + right; right. exists u, p.
      assert (handle rt e (POST_admin_login u p) w
              = (RedirectResponse "/admin" 303,
                 emit (Log INFO "Admin logged in successfully")
                   (set_session (<[flag := true]> (session w)) w0))) as ->.
      { unfold handle. rewrite Hend.
        unfold get_redis, try_except, admin_login.
        by rewrite (bind_inr _ _ _ _ _ Hat). }
      by repeat split.
    + left. rewrite handle_snd, Hend.
      unfold get_redis, try_except, admin_login.
      by rewrite (bind_inr _ _ _ _ _ Hat).
  - left. rewrite handle_snd. apply (admin_panel_frame same_session).
  - left. rewrite handle_snd. simpl.
    apply (with_store_frame same_session), broadcast_message_frame;
      typeclasses eauto.
  - left. rewrite handle_snd. apply (view_logs_frame same_session).
  - by left.
  - right; left. done.
Qed.

(** One request changes the session in one of three ways. *)
Lemma handle_session rt e r w :
  session (handle rt e r w).2 = session w
  \/ session (handle rt e r w).2 = ∅
  \/ exists u p,
       r = POST_admin_login u p /\ conn e = inr tt
       /\ verify_admin rt u p w = (inr true, w)
       /\ (handle rt e r w).1 = RedirectResponse "/admin" 303
       /\ session (handle rt e r w).2 = <[flag := true]> (session w).
Proof.
  destruct (handle_session_cases rt e r w) as [H|[[_ H]|H]]; eauto.
Qed.

Lemma serve_cons rt e r rs w :
  serve rt ((e, r) :: rs) w
  = ((handle rt e r w).1 :: (serve rt rs (handle rt e r w).2).1,
     (serve rt rs (handle rt e r w).2).2).
Proof.
  simpl. destruct (handle rt e r w) as [x w1]. simpl.
  by destruct (serve rt rs w1).
Qed.

Lemma serve_app rt rs1 rs2 w :
  (serve rt (rs1 ++ rs2) w).2 = (serve rt rs2 (serve rt rs1 w).2).2.
Proof.
  revert w. induction rs1 as [|[e r] rs1 IH]; intros w; [done|].
  rewrite <- app_comm_cons, !serve_cons. simpl. apply IH.
Qed.




(** C9. A request sets the session flag only when it is a login whose
    credentials [verify_admin] accepts; any other request leaves the session
    as it was or empties it.  Hence a session that ends up authenticated
    after a sequence of requests went through such a login. *)
Theorem flag_only_by_verified_login rt :
  (forall e r w,
     session (handle rt e r w).2 = session w
     \/ session (handle rt e r w).2 = ∅
     \/ exists u p, r = POST_admin_login u p
          /\ verify_admin rt u p w = (inr true, w)
          /\ session (handle rt e r w).2 = <[flag := true]> (session w))
  /\ (forall rs w,
        logged_in w = false ->
        logged_in (serve rt rs w).2 = true ->
        exists pre e u p post,
          rs = pre ++ (e, POST_admin_login u p) :: post
          /\ conn e = inr tt
          /\ verify_admin rt u p (serve rt pre w).2
             = (inr true, (serve rt pre w).2)).
Proof.
  split.
  - intros e r w.
    destruct (handle_session rt e r w)
      as [Hs|[Hs|(u & p & ? & _ & ? & _ & ?)]]; eauto 10.
  - intros rs. induction rs as [|[e r] rs IH]; intros w Hw Hend.
    { simpl in Hend. congruence. }
    rewrite serve_cons in Hend. simpl in Hend.
    destruct (logged_in (handle rt e r w).2) eqn:Hmid.
    + destruct (handle_session rt e r w)
        as [Hs|[Hs|(u & p & -> & Hc & Hv & _ & _)]].
      * rewrite (logged_in_same _ _ Hs) in Hmid. congruence.
      * rewrite (logged_in_no_session _ Hs) in Hmid. congruence.
      * exists [], e, u, p, rs. by repeat split.
    + destruct (IH _ Hmid Hend) as (pre & e' & u & p & post & -> & Hc & Hv).
      exists ((e, r) :: pre), e', u, p, post.
      rewrite serve_cons. simpl. by repeat split.
Qed.

(** C10. For a request to /logs from an authenticated session: when logs.txt
    exists, the answer renders logs.html with the whole text of the file and
    nothing changes; when it does not exist, the answer is the 404
    "Logs not available" and only the error is logged. *)
Theorem view_logs_authenticated rt e w :
  logged_in w = true ->
  (forall text, logs_txt e = Some text ->
     handle rt e GET_logs w
     = (TemplateResponse "logs.html" [("logs", text)] 200, w))
  /\ (logs_txt e = None ->
     handle rt e GET_logs w
     = (ErrorResponse 404 "Logs not available",
        emit (Log ERROR "Log file not found") w)).
Proof.
  intros Hw. unfold logged_in, flag in Hw.
  split; [intros text Ht | intros Ht];
    unfold handle; simpl;
    unfold view_logs, bind, session_get, try_except, read_logs;
    by rewrite Hw, Ht.
Qed.

(** ** The connection retry loop *)

Lemma retry_loop_not_pong n i tr :
  retry_loop n 3 1 never_pong i 0 tr = (None, tr ++ replicate n Ping).
Proof.
  revert i tr. induction n as [|n IH]; intros i tr; simpl.
  - by rewrite app_nil_r.
  - rewrite IH. by rewrite <- app_assoc.
Qed.

(** C6 (the code at the failing input). When every ping answers without
    raising but with something other than PONG, the loop is still running
    after any number [n] of iterations, has pinged [n] times and has never
    slept. *)
Theorem retry_spins_on_false_ping n :
  get_redis_with_retry n never_pong = (None, replicate n Ping)
  /\ attempts (get_redis_with_retry n never_pong).2 = n.
Proof.
  unfold get_redis_with_retry. rewrite retry_loop_not_pong.
  split; [done|]. unfold attempts. cbn [snd app].
  induction n as [|n IH]; [done|]. cbn [replicate].
  rewrite filter_cons_True by done. cbn [length]. by rewrite IH.
Qed.

(** When no ping answers falsely, four iterations are enough: the loop
    returns, after at most three pings, and sleeps only for one second. *)
Lemma retry_terminates pings fuel :
  (forall i, pings i <> NotPong) ->
  exists r tr,
    get_redis_with_retry (4 + fuel) pings = (Some r, tr)
    /\ (attempts tr <= 3)%nat
    /\ (forall s, Sleep s ∈ tr -> s = 1).
Proof.
  intros Hp. unfold get_redis_with_retry. simpl.
  assert (Hs : forall s tr, Sleep s ∈ tr ->
             Forall (fun ev => forall s', ev = Sleep s' -> s' = 1) tr -> s = 1).
  { intros s tr Hin Hall. rewrite Forall_forall in Hall. eauto. }
  destruct (pings 0%nat) as [| |e0] eqn:E0; [|by destruct (Hp 0%nat)|].
  { eexists _, _. split; [done|]. split; [vm_compute; lia|].
    intros s Hin. eapply Hs; [done|]. repeat constructor; congruence. }
  destruct (is_ConnectionError e0).
  2:{ eexists _, _. split; [done|]. split; [vm_compute; lia|].
      intros s Hin. eapply Hs; [done|]. repeat constructor; congruence. }
  simpl.
  destruct (pings 1%nat) as [| |e1] eqn:E1; [|by destruct (Hp 1%nat)|].
  { eexists _, _. split; [done|]. split; [vm_compute; lia|].
    intros s Hin. eapply Hs; [done|]. repeat constructor; congruence. }
  destruct (is_ConnectionError e1).
  2:{ eexists _, _. split; [done|]. split; [vm_compute; lia|].
      intros s Hin. eapply Hs; [done|]. repeat constructor; congruence. }
  simpl.
  destruct (pings 2%nat) as [| |e2] eqn:E2; [|by destruct (Hp 2%nat)|].
  { eexists _, _. split; [done|]. split; [vm_compute; lia|].
    intros s Hin. eapply Hs; [done|]. repeat constructor; congruence. }
  destruct (is_ConnectionError e2).
  2:{ eexists _, _. split; [done|]. split; [vm_compute; lia|].
      intros s Hin. eapply Hs; [done|]. repeat constructor; congruence. }
  simpl. eexists _, _. split; [done|]. split; [vm_compute; lia|].
  intros s Hin. eapply Hs; [done|]. repeat constructor; congruence.
Qed.

(** The start-up path treats the same falsy ping as a failed connection. *)
Lemma startup_false_ping rt w :
  (startup_event rt NotPong w).1 = inl (RuntimeError "Redis connection failed").
Proof. reflexivity. Qed.

(** Start-up creates the account once: a second run changes nothing in the
    store. *)
Lemma startup_seeds_once rt w :
  redis (initialize_admin_account rt
           (initialize_admin_account rt w).2).2
  = redis (initialize_admin_account rt w).2.
Proof.
  assert (Hpresent : forall w', is_Some (redis w' !! "admin:account") ->
            initialize_admin_account rt w' = (inr tt, w')).
  { intros w' Hp. unfold initialize_admin_account, bind, r_exists.
    by rewrite (bool_decide_eq_true_2 _ Hp). }
  destruct (redis w !! "admin:account") as [v|] eqn:Hv.
  - rewrite (Hpresent w (mk_is_Some _ _ Hv)). cbn [snd].
    by rewrite (Hpresent w (mk_is_Some _ _ Hv)).
  - assert (Hrun : initialize_admin_account rt w
             = (inr tt,
                emit (Log INFO "Admin account initialized")
                  (set_redis
                     (<["admin:account" :=
                          RHash (set_fields
                                   [("username", ADMIN_USERNAME rt);
                                    ("password",
                                     bcrypt_hashpw rt (ADMIN_PASSWORD rt))]
                                   ∅)]> (redis w)) w))).
    { unfold initialize_admin_account, bind, r_exists, hset, log.
      rewrite Hv. rewrite bool_decide_eq_false_2 by (by intros [? ?]).
      cbn [negb]. by rewrite Hv. }
    rewrite Hrun. cbn [snd]. rewrite Hpresent; [done|].
    cbn [redis emit set_redis]. rewrite lookup_insert_eq. by eexists.
Qed.

(** Three refused connections: three pings with a one-second sleep after the
    first and after the second, then [ConnectionError]. *)
Lemma retry_exhausted fuel :
  get_redis_with_retry (4 + fuel) always_refused
  = (Some (inl (RedisConnectionError
                  "Max retries reached. Could not connect to Redis.")),
     [ Ping;
       Log WARNING "Redis connection attempt 1 failed: Connection refused";
       Sleep 1;
       Ping;
       Log WARNING "Redis connection attempt 2 failed: Connection refused";
       Sleep 1;
       Ping;
       Log WARNING "Redis connection attempt 3 failed: Connection refused" ]).
Proof. reflexivity. Qed.

(** A connection error out of the retry loop becomes a 500 before the
    endpoint runs. *)
Lemma get_redis_unreachable {A} m (endpoint : M A) w :
  get_redis (inl (RedisConnectionError m)) endpoint w
  = (inl (HTTPException 500
            "Database connection failed. Please check Redis credentials."),
     emit (Log ERROR ("Redis connection error: " +:+ m)) w).
Proof. reflexivity. Qed.

(** ** The mail dispatcher *)

Lemma module_has_no_EmailMessage rt :
  globals rt = module_globals -> name_bound rt "EmailMessage" = false.
Proof. unfold name_bound. intros ->. by vm_compute. Qed.

(** C4 (the code at the failing input). In the module as it is, whose
    namespace binds no [EmailMessage], the dispatcher raises [NameError] at
    its first statement for every triple: no session is opened, nothing is
    sent, nothing is logged. *)
Theorem send_email_name_error rt e to subject body w :
  globals rt = module_globals ->
  send_email rt e to subject body w = (inl (NameError "EmailMessage"), w).
Proof.
  intros Hg. unfold send_email.
  by rewrite (module_has_no_EmailMessage rt Hg).
Qed.

(** ** Decimal rendering *)

Lemma int_of_str_str z : PyStr.int_of_str (PyStr.str z) = Some z.
Proof.
  unfold PyStr.int_of_str, PyStr.str.
  rewrite NilZero.isi.
  - rewrite DecimalZ.of_to. by rewrite String.eqb_refl.
  - destruct z; simpl; try discriminate.
    intros [= H]. by apply Unsigned.to_uint_nonnil in H.
  - destruct z; simpl; try discriminate.
    intros [= H]. by apply Unsigned.to_uint_nonnil in H.
Qed.

Lemma str_inj a b : PyStr.str a = PyStr.str b -> a = b.
Proof.
  intros H. apply (f_equal PyStr.int_of_str) in H.
  rewrite !int_of_str_str in H. congruence.
Qed.

Lemma user_key_inj a b : user_key a = user_key b -> a = b.
Proof. unfold user_key. simpl. intros [= H]. by apply str_inj. Qed.

Lemma user_key_not_count id : user_key id <> "users:count".
Proof. unfold user_key. intros H. discriminate H. Qed.

Lemma user_key_not_index id : user_key id <> "users:emails".
Proof. unfold user_key. intros H. discriminate H. Qed.

Lemma user_key_not_account id : user_key id <> "admin:account".
Proof. unfold user_key. intros H. discriminate H. Qed.

Lemma user_key_prefix id : PyStr.startswith "user:" (user_key id) = true.
Proof. reflexivity. Qed.

Lemma glob_user_star k : glob_match "user:*" k = PyStr.startswith "user:" k.
Proof.
  assert (Hstar : forall s,
            (fix star (s : string) : bool :=
               glob_match "" s
               || match s with
                  | EmptyString => false
                  | String _ s' => star s'
                  end) s = true).
  { induction s as [|c s IH]; [done|]. simpl. exact IH. }
  destruct k as [|c1 [|c2 [|c3 [|c4 [|c5 k]]]]]; simpl; try done;
    repeat (case_match; try done); apply Hstar.
Qed.

(** ** Registration *)

Lemma counter_value d :
  store_ok d ->
  (d !! "users:count" = None /\ counter d = 0)
  \/ (0 < counter d <= INT64_MAX
      /\ d !! "users:count" = Some (RString (PyStr.str (counter d)))).
Proof.
  intros Hok. unfold counter.
  destruct (ok_count d Hok) as [H|(n & Hn & H)]; rewrite H.
  - by left.
  - right. by rewrite int_of_str_str.
Qed.

Lemma hexists_index w email :
  store_ok (redis w) ->
  hexists "users:emails" email w
  = (inr (bool_decide (is_Some (index (redis w) !! email))), w).
Proof.
  intros Hok. unfold hexists, index.
  destruct (redis w !! "users:emails") as [[s|h]|] eqn:E; try done.
  by destruct (ok_index _ Hok s).
Qed.

Lemma incr_count w :
  store_ok (redis w) ->
  incr "users:count" w
  = if counter (redis w) <? INT64_MAX
    then (inr (counter (redis w) + 1),
          set_redis (<["users:count" :=
                         RString (PyStr.str (counter (redis w) + 1))]>
                       (redis w)) w)
    else (inl (RedisResponseError "increment or decrement would overflow"), w).
Proof.
  intros Hok. unfold incr.
  destruct (counter_value _ Hok) as [[H Hc]|[Hc H]]; rewrite H.
  - rewrite Hc. done.
  - rewrite int_of_str_str.
    assert ((counter (redis w) <? - INT64_MAX - 1) = false) as ->.
    { apply Z.ltb_ge. unfold INT64_MAX in *. lia. }
    assert ((INT64_MAX <? counter (redis w)) = false) as ->.
    { apply Z.ltb_ge. lia. }
    cbn [orb].
    destruct (Z.eqb_spec (counter (redis w)) INT64_MAX) as [He|He];
      destruct (Z.ltb_spec (counter (redis w)) INT64_MAX); try done; lia.
Qed.

Lemma hset_fresh k m w :
  redis w !! k = None ->
  hset k m w
  = (inr tt, set_redis (<[k := RHash (set_fields m ∅)]> (redis w)) w).
Proof. intros H. unfold hset. by rewrite H. Qed.

Lemma hset_index f v w :
  (forall s, redis w !! "users:emails" <> Some (RString s)) ->
  hset "users:emails" [(f, v)] w
  = (inr tt,
     set_redis (<["users:emails" := RHash (<[f := v]> (index (redis w)))]>
                  (redis w)) w).
Proof.
  intros Hok. unfold hset, index.
  destruct (redis w !! "users:emails") as [[s|h]|] eqn:E; try done.
  by destruct (Hok s).
Qed.

Lemma fresh_key d :
  store_ok d -> d !! user_key (counter d + 1) = None.
Proof.
  intros Hok. destruct (d !! user_key (counter d + 1)) eqn:E; [|done].
  destruct (ok_prefix d Hok (user_key (counter d + 1))) as (id & Hk & Hr).
  - apply user_key_prefix.
  - by eexists.
  - apply user_key_inj in Hk. lia.
Qed.

(** On a well-formed store, [register_user] computes [register_user_result]. *)
Lemma register_user_eq rt name email w :
  store_ok (redis w) ->
  register_user rt name email w = register_user_result rt name email w.
Proof.
  intros Hok. unfold register_user, register_user_result, validate_email,
    try_except.
  destruct (EmailStr_validate rt email) as [ex|] eqn:Ev.
  { destruct ex; try done. }
  rewrite bind_ret_l. cbn [negb].
  rewrite (bind_inr _ _ _ _ _ (hexists_index w email Hok)).
  destruct (bool_decide (is_Some (index (redis w) !! email))); [done|].
  pose proof (incr_count w Hok) as Hi.
  destruct (counter (redis w) <? INT64_MAX) eqn:Hlt.
  2:{ by rewrite (bind_inl _ _ _ _ _ Hi). }
  rewrite (bind_inr _ _ _ _ _ Hi).
  set (id := counter (redis w) + 1).
  set (w1 := set_redis _ w).
  assert (H1 : redis w1 !! ("user:" +:+ PyStr.str id) = None).
  { subst w1. simpl. rewrite lookup_insert_ne.
    - apply (fresh_key _ Hok).
    - intros H. symmetry in H. by apply user_key_not_count in H. }
  rewrite (bind_inr _ _ _ _ _ (hset_fresh _ _ _ H1)).
  set (w2 := set_redis _ w1).
  assert (H2 : forall s, redis w2 !! "users:emails" <> Some (RString s)).
  { intros s. subst w2 w1. simpl.
    rewrite lookup_insert_ne by (apply (user_key_not_index id)).
    rewrite lookup_insert_ne by done. apply (ok_index _ Hok). }
  rewrite (bind_inr _ _ _ _ _ (hset_index _ _ _ H2)).
  unfold bind, log, ret. simpl. f_equal.
  unfold emit, set_redis, registered; simpl. f_equal.
  fold id. f_equal. f_equal. f_equal.
  unfold index. rewrite lookup_insert_ne by (apply (user_key_not_index id)).
  by rewrite lookup_insert_ne by done.
Qed.

Lemma counter_nonneg d : store_ok d -> 0 <= counter d.
Proof. intros Hok. destruct (counter_value d Hok) as [[_ ->]|[? _]]; lia. Qed.

Lemma new_record_fields name email id :
  new_record name email id !! "name" = Some (PyStr.strip name)
  /\ new_record name email id !! "email" = Some (norm email)
  /\ new_record name email id !! "id" = Some (PyStr.str id).
Proof.
  unfold new_record, set_fields. simpl.
  repeat split;
    repeat (rewrite lookup_insert_ne by done); by rewrite lookup_insert_eq.
Qed.

Lemma registered_count d name email :
  registered d name email !! "users:count"
  = Some (RString (PyStr.str (counter d + 1))).
Proof.
  unfold registered. rewrite lookup_insert_ne by done.
  rewrite lookup_insert_ne by (apply user_key_not_count).
  by rewrite lookup_insert_eq.
Qed.

Lemma registered_counter d name email :
  counter (registered d name email) = counter d + 1.
Proof. unfold counter at 1. by rewrite registered_count, int_of_str_str. Qed.

Lemma registered_index d name email :
  index (registered d name email)
  = <[norm email := PyStr.str (counter d + 1)]> (index d).
Proof. unfold index at 1, registered. by rewrite lookup_insert_eq. Qed.

Lemma registered_new d name email :
  registered d name email !! user_key (counter d + 1)
  = Some (RHash (new_record name email (counter d + 1))).
Proof.
  unfold registered.
  rewrite lookup_insert_ne
    by (intros H; symmetry in H; by apply user_key_not_index in H).
  by rewrite lookup_insert_eq.
Qed.

Lemma registered_other d name email k :
  k <> "users:count" -> k <> "users:emails" ->
  k <> user_key (counter d + 1) ->
  registered d name email !! k = d !! k.
Proof.
  intros H1 H2 H3. unfold registered.
  by rewrite !lookup_insert_ne by done.
Qed.

Lemma prefix_not_special k :
  PyStr.startswith "user:" k = true ->
  k <> "users:count" /\ k <> "users:emails" /\ k <> "admin:account".
Proof. intros H. repeat split; intros ->; discriminate H. Qed.

(** Registering keeps the store well formed and advances the counter. *)
Lemma registered_store_ok d name email :
  store_ok d -> counter d < INT64_MAX -> store_ok (registered d name email).
Proof.
  intros Hok Hmax. pose proof (counter_nonneg d Hok) as Hc.
  pose proof (fresh_key d Hok) as Hfresh.
  split.
  - right. exists (counter d + 1). split; [lia|]. apply registered_count.
  - intros s. unfold registered. by rewrite lookup_insert_eq.
  - intros k Hp Hk. rewrite registered_counter.
    destruct (decide (k = user_key (counter d + 1))) as [->|Hne].
    { exists (counter d + 1). split; [done|lia]. }
    destruct (prefix_not_special k Hp) as (H1 & H2 & _).
    rewrite registered_other in Hk by done.
    destruct (ok_prefix d Hok k Hp Hk) as (id & -> & Hr).
    exists id. split; [done|lia].
  - intros id v Hv. rewrite registered_index.
    destruct (decide (id = counter d + 1)) as [->|Hne].
    { rewrite registered_new in Hv. injection Hv as <-.
      destruct (new_record_fields name email (counter d + 1))
        as (Hn & He & _).
      exists (new_record name email (counter d + 1)), (norm email).
      split; [done|]. split; [done|]. split.
      - rewrite Hn. by eexists.
      - rewrite lookup_insert_eq. by eexists. }
    rewrite registered_other in Hv;
      [|apply user_key_not_count|apply user_key_not_index
       |by intros H%user_key_inj].
    destruct (ok_record d Hok id v Hv) as (h & em & -> & He & Hn & Hi).
    exists h, em. split; [done|]. split; [done|]. split; [done|].
    rewrite lookup_insert. case_decide; [by eexists|done].
  - intros em uid. rewrite registered_index, lookup_insert.
    case_decide as Hem.
    { intros [= <-]. subst em.
      exists (counter d + 1), (new_record name email (counter d + 1)).
      split; [done|]. split; [apply registered_new|].
      apply new_record_fields. }
    intros Hi.
    destruct (ok_entry d Hok em uid Hi) as (id & h & -> & Hr & He).
    exists id, h. split; [done|]. split; [|done].
    rewrite registered_other;
      [done|apply user_key_not_count|apply user_key_not_index|].
    intros H. rewrite <- H in Hfresh. congruence.
Qed.

(** Keys that exist, other than the counter and the index, keep their value
    through a registration. *)
Lemma registered_keeps d name email k :
  store_ok d -> k <> "users:count" -> k <> "users:emails" ->
  is_Some (d !! k) ->
  registered d name email !! k = d !! k.
Proof.
  intros Hok H1 H2 Hk. apply registered_other; [done|done|].
  intros ->. rewrite (fresh_key d Hok) in Hk. by destruct Hk.
Qed.

(** What a registration request does to a well-formed store: it is answered
    with the redirect to /success and the store is [registered], or it is
    answered otherwise and the store is as it was. *)
Lemma register_request rt e name email w :
  store_ok (redis w) ->
  ((handle rt e (POST_root name email) w).1 = registered_ok
   /\ conn e = inr tt
   /\ EmailStr_validate rt email = None
   /\ index (redis w) !! email = None
   /\ counter (redis w) < INT64_MAX
   /\ redis (handle rt e (POST_root name email) w).2
      = registered (redis w) name email)
  \/ ((handle rt e (POST_root name email) w).1 <> registered_ok
      /\ redis (handle rt e (POST_root name email) w).2 = redis w).
Proof.
  intros Hok. unfold handle. cbn [endpoint]. rewrite with_store_eq.
  set (w0 := add_trace (conn_trace e) w).
  assert (Hok0 : store_ok (redis w0)) by exact Hok.
  change (redis w) with (redis w0).
  unfold get_redis, try_except.
  destruct (conn e) as [ex|[]] eqn:Hc.
  { right. unfold raise.
    destruct (is_RedisError ex); [|by destruct ex].
    destruct (is_AuthenticationError ex); [done|].
    by destruct (is_ConnectionError ex). }
  destruct (forallb filled [name; email]); [|by right].
  rewrite (register_user_eq rt name email w0 Hok0).
  unfold register_user_result.
  destruct (EmailStr_validate rt email) as [ex|] eqn:Ev.
  { right. destruct ex; done. }
  destruct (bool_decide_reflect (is_Some (index (redis w0) !! email)))
    as [Hi|Hi]; [by right|].
  destruct (Z.ltb_spec (counter (redis w0)) INT64_MAX); [|by right].
  left. repeat split; try done.
  by apply eq_None_not_Some.
Qed.

Lemma handle_redis_other rt e r w :
  (forall name email, r <> POST_root name email) ->
  redis (handle rt e r w).2 = redis w.
Proof.
  intros Hr. rewrite handle_snd.
  destruct r as [|name email| |u p| |message| | |]; simpl; try done.
  - by destruct (Hr name email).
  - apply (with_store_frame same_redis), admin_login_redis.
  - apply (admin_panel_frame same_redis).
  - apply (with_store_frame same_redis), broadcast_message_frame;
      typeclasses eauto.
  - apply (view_logs_frame same_redis).
Qed.

(** Every request keeps the store well formed, never lowers the counter and
    never touches an existing key other than the counter and the index. *)
Lemma handle_store rt e r w :
  store_ok (redis w) ->
  store_ok (redis (handle rt e r w).2)
  /\ counter (redis w) <= counter (redis (handle rt e r w).2)
  /\ forall k, k <> "users:count" -> k <> "users:emails" ->
       is_Some (redis w !! k) ->
       redis (handle rt e r w).2 !! k = redis w !! k.
Proof.
  intros Hok.
  assert (Hsame : redis (handle rt e r w).2 = redis w ->
          store_ok (redis (handle rt e r w).2)
          /\ counter (redis w) <= counter (redis (handle rt e r w).2)
          /\ forall k, k <> "users:count" -> k <> "users:emails" ->
               is_Some (redis w !! k) ->
               redis (handle rt e r w).2 !! k = redis w !! k).
  { intros ->. split; [done|]. split; [lia|done]. }
  destruct r as [|name email| |u p| |message| | |];
    try (apply Hsame, handle_redis_other; intros; discriminate).
  destruct (register_request rt e name email w Hok)
    as [(_ & _ & _ & _ & Hmax & ->)|[_ Hs]]; [|by apply Hsame].
  split; [by apply registered_store_ok|].
  split; [rewrite registered_counter; lia|].
  intros k H1 H2 Hk. by apply registered_keeps.
Qed.

Lemma serve_store rt rs w :
  store_ok (redis w) ->
  store_ok (redis (serve rt rs w).2)
  /\ counter (redis w) <= counter (redis (serve rt rs w).2)
  /\ forall k, k <> "users:count" -> k <> "users:emails" ->
       is_Some (redis w !! k) ->
       redis (serve rt rs w).2 !! k = redis w !! k.
Proof.
  revert w. induction rs as [|[e r] rs IH]; intros w Hok.
  { simpl. split; [done|]. split; [lia|done]. }
  rewrite serve_cons. simpl.
  destruct (handle_store rt e r w Hok) as (Hok1 & Hc1 & Hk1).
  destruct (IH _ Hok1) as (Hok2 & Hc2 & Hk2).
  split; [done|]. split; [lia|].
  intros k H1 H2 Hk. rewrite Hk2; [by apply Hk1|done|done|].
  rewrite Hk1; done.
Qed.

Lemma empty_store_ok : store_ok ∅.
Proof.
  split.
  - by left.
  - intros s. by rewrite lookup_empty.
  - intros k _ [v Hv]. by rewrite lookup_empty in Hv.
  - intros id v Hv. by rewrite lookup_empty in Hv.
  - intros em uid. unfold index. rewrite lookup_empty.
    intros Hv. by rewrite lookup_empty in Hv.
Qed.

(** The administrator account does not interfere with the registry. *)
Lemma store_ok_account d v :
  store_ok d -> store_ok (<["admin:account" := v]> d).
Proof.
  intros Hok.
  assert (Hc : counter (<["admin:account" := v]> d) = counter d).
  { unfold counter. by rewrite lookup_insert_ne. }
  assert (Hi : index (<["admin:account" := v]> d) = index d).
  { unfold index. by rewrite lookup_insert_ne. }
  split.
  - rewrite lookup_insert_ne by done. apply (ok_count _ Hok).
  - intros s. rewrite lookup_insert_ne by done. apply (ok_index _ Hok).
  - intros k Hp Hk. rewrite Hc.
    destruct (prefix_not_special k Hp) as (_ & _ & Ha).
    rewrite lookup_insert_ne in Hk by done. by apply (ok_prefix _ Hok).
  - intros id u Hu. rewrite Hi.
    rewrite lookup_insert_ne in Hu
      by (intros H; symmetry in H; by apply user_key_not_account in H).
    by apply (ok_record _ Hok id).
  - intros em uid. rewrite Hi. intros Hem.
    destruct (ok_entry _ Hok em uid Hem) as (id & h & -> & Hr & He).
    exists id, h. split; [done|]. split; [|done].
    rewrite lookup_insert_ne; [done|].
    intros H; symmetry in H; by apply user_key_not_account in H.
Qed.

Lemma seeded_store_ok : store_ok (redis seeded_world).
Proof.
  change (redis seeded_world)
    with (<["admin:account" :=
              RHash (set_fields [("username", "admin");
                                 ("password", "$2b$securepassword")] ∅)]>
            (∅ : gmap string rvalue)).
  apply store_ok_account, empty_store_ok.
Qed.

(** C8. From a well-formed store and after any requests, when a registration
    is answered with the redirect to /success, the id it allocated is the
    counter's next value, and then and after any further requests, reading
    the record back under "user:<id>", as the broadcast does, gives exactly
    the three fields written: the name trimmed, the email lowercased and
    trimmed, and the decimal rendering of the id. *)
Theorem record_reads_back rt w0 pre e name email post :
  store_ok (redis w0) ->
  (handle rt e (POST_root name email) (serve rt pre w0).2).1 = registered_ok ->
  let w1 := (serve rt pre w0).2 in
  let id := counter (redis w1) + 1 in
  let w2 := (serve rt post (handle rt e (POST_root name email) w1).2).2 in
  (incr "users:count" w1).1 = inr id
  /\ hgetall (user_key id) w2 = (inr (new_record name email id), w2)
  /\ read_user (user_key id) w2
     = (inr (Some (PyStr.strip name),
             Some (PyStr.strip (PyStr.lower email))), w2)
  /\ field w2 (user_key id) "name" = Some (PyStr.strip name)
  /\ field w2 (user_key id) "email" = Some (PyStr.strip (PyStr.lower email))
  /\ field w2 (user_key id) "id" = Some (PyStr.str id).
Proof.
  intros Hok0 Hans w1 id w2.
  destruct (serve_store rt pre w0 Hok0) as (Hok1 & _ & _). fold w1 in Hok1.
  destruct (register_request rt e name email w1 Hok1)
    as [(_ & _ & _ & Hidx & Hmax & Hreg)|[Hne _]]; [|by destruct Hne].
  assert (Hlt : (counter (redis w1) <? INT64_MAX) = true)
    by (by apply Z.ltb_lt).
  set (w1' := (handle rt e (POST_root name email) w1).2) in *.
  assert (Hok1' : store_ok (redis w1')).
  { rewrite Hreg. by apply registered_store_ok. }
  destruct (serve_store rt post w1' Hok1') as (_ & _ & Hkeep).
  assert (Hrec : redis w2 !! user_key id
                 = Some (RHash (new_record name email id))).
  { subst w2 id. rewrite Hkeep.
    - rewrite Hreg. apply registered_new.
    - apply user_key_not_count.
    - apply user_key_not_index.
    - rewrite Hreg, registered_new. by eexists. }
  destruct (new_record_fields name email id) as (Hn & He & Hi).
  split.
  { rewrite (incr_count w1 Hok1), Hlt. done. }
  split.
  { unfold hgetall. by rewrite Hrec. }
  split.
  { unfold read_user, bind, hgetall. rewrite Hrec. unfold ret.
    by rewrite Hn, He. }
  unfold field. rewrite Hrec. done.
Qed.


(** The index stays consistent with the records along every sequence of
    requests from the empty store: each record's email is an index key and
    each index entry names a record that carries its email. *)
Lemma index_stays_consistent rt rs :
  store_ok (redis (serve rt rs empty_world).2).
Proof. apply serve_store, empty_store_ok. Qed.

(** A registration with both fields filled in whose submitted email is,
    character for character, a key of the index is rejected with a 400 and
    changes neither the store nor the session. *)
Lemma literal_duplicate_rejected rt e name email w :
  store_ok (redis w) ->
  filled name = true ->
  filled email = true ->
  conn e = inr tt ->
  EmailStr_validate rt email = None ->
  is_Some (index (redis w) !! email) ->
  handle rt e (POST_root name email) w
  = (already_registered, add_trace (conn_trace e) w).
Proof.
  intros Hok Hfn Hfe Hc Hv Hi. unfold handle. cbn [endpoint].
  rewrite with_store_eq. cbn [forallb]. rewrite Hfn, Hfe, Hc. cbn [andb].
  unfold get_redis, try_except.
  rewrite (register_user_eq rt name email (add_trace (conn_trace e) w) Hok).
  unfold register_user_result. rewrite Hv.
  cbn [redis add_trace]. by rewrite (bool_decide_eq_true_2 _ Hi).
Qed.

(** C1 (the code at the failing input). Registering ann@example.org and then
    ANN@EXAMPLE.ORG leaves two records, user:1 and user:2, that carry the same
    normalized email, and the index maps that email to the second one only. *)
Theorem two_records_one_email :
  let w := (serve shipped same_email_twice empty_world).2 in
  field w (user_key 1) "email" = Some "ann@example.org"
  /\ field w (user_key 2) "email" = Some "ann@example.org"
  /\ user_key 1 <> user_key 2
  /\ index (redis w) !! "ann@example.org" = Some "2".
Proof. vm_compute. repeat split; try done. Qed.

(** C2 (the code at the failing input). With ann@example.org registered, a
    second registration as ANN@EXAMPLE.ORG, which normalizes to the same
    email, is answered with the redirect to /success, creates user:2 and
    moves the index entry from id 1 to id 2. *)
Theorem case_variant_not_rejected :
  let w1 := (handle shipped env_up (POST_root "Ann" "ann@example.org")
               empty_world).2 in
  let r2 := handle shipped env_up (POST_root "Ann" "ANN@EXAMPLE.ORG") w1 in
  norm "ANN@EXAMPLE.ORG" = "ann@example.org"
  /\ index (redis w1) !! "ann@example.org" = Some "1"
  /\ field w1 (user_key 2) "email" = None
  /\ r2.1 = RedirectResponse "/success" 303
  /\ field r2.2 (user_key 2) "email" = Some "ann@example.org"
  /\ index (redis r2.2) !! "ann@example.org" = Some "2".
Proof. vm_compute. repeat split. Qed.

(** ** Broadcast *)

(** C3 (the code at the failing input). With Ann and Bo registered and the
    administrator logged in, a broadcast of "Hello {{Student_name}}" is
    answered with a plain 500: the first [send_email] raises [NameError],
    which the handler does not catch, and no message is sent. *)
Theorem broadcast_sends_nothing :
  let r := handle shipped env_up
             (POST_admin_broadcast "Hello {{Student_name}}") two_users in
  logged_in two_users = true
  /\ user_at two_users (user_key 1) = (Some "Ann", Some "ann@example.org")
  /\ user_at two_users (user_key 2) = (Some "Bo", Some "bo@example.org")
  /\ endpoint shipped env_up
       (POST_admin_broadcast "Hello {{Student_name}}") two_users
     = (inl (NameError "EmailMessage"),
        add_trace (conn_trace env_up) two_users)
  /\ r.1 = ErrorResponse 500 "Internal Server Error"
  /\ messages_sent (trace r.2) = [].
Proof. vm_compute. repeat split. Qed.

Lemma user_keys_spec w k :
  k ∈ user_keys w <-> PyStr.startswith "user:" k = true /\ is_Some (redis w !! k).
Proof.
  unfold user_keys. rewrite list_elem_of_filter, glob_user_star.
  rewrite list_elem_of_fmap. split.
  - intros [Hp ([k' v] & -> & Hin)]. split; [done|].
    apply elem_of_map_to_list in Hin. by eexists.
  - intros [Hp [v Hv]]. split; [done|]. exists (k, v). split; [done|].
    by apply elem_of_map_to_list.
Qed.

Lemma scan_user_keys w : scan_iter "user:*" w = (inr (user_keys w), w).
Proof. reflexivity. Qed.

Lemma read_user_at w k :
  (forall s, redis w !! k <> Some (RString s)) ->
  read_user k w = (inr (user_at w k), w).
Proof.
  intros Hk. unfold read_user, bind, hgetall, user_at, field.
  destruct (redis w !! k) as [[s|h]|]; try done. by destruct (Hk s).
Qed.

Lemma collect_read_user w keys :
  (forall k, k ∈ keys -> forall s, redis w !! k <> Some (RString s)) ->
  collect keys read_user w = (inr (map (user_at w) keys), w).
Proof.
  induction keys as [|k keys IH]; intros Hk; [done|]. simpl.
  rewrite (bind_inr _ _ _ _ _ (read_user_at w k (Hk k (list_elem_of_here _ _)))).
  rewrite (bind_inr _ _ _ _ _ (IH (fun k' H => Hk k' (list_elem_of_further _ _ _ H)))).
  done.
Qed.

Lemma add_trace_nil w : add_trace [] w = w.
Proof. destruct w. unfold add_trace. simpl. by rewrite app_nil_r. Qed.

Lemma add_trace_app evs1 evs2 w :
  add_trace evs2 (add_trace evs1 w) = add_trace (evs1 ++ evs2) w.
Proof. unfold add_trace. simpl. by rewrite app_assoc. Qed.

(** The example of the spec on the module with the import in place: two
    sessions, "Hello Ann" to Ann's address and "Hello Bo" to Bo's. *)
Lemma broadcast_ann_bo_with_import :
  let rt := with_EmailMessage shipped in
  let r := handle rt env_up
             (POST_admin_broadcast "Hello {{Student_name}}") two_users in
  messages_sent (drop (length (trace two_users)) (trace r.2))
  ≡ₚ [ {| Subject := "New Announcement"; From := "user@example.com";
          To := Some "ann@example.org"; content := "Hello Ann" |};
       {| Subject := "New Announcement"; From := "user@example.com";
          To := Some "bo@example.org"; content := "Hello Bo" |} ]
  /\ connects (drop (length (trace two_users)) (trace r.2)) = 2%nat
  /\ last (trace r.2) = Some (Log INFO "Broadcast message sent to 2 users")
  /\ status_of r.1 = 200.
Proof.
  split; [|vm_compute; by repeat split].
  vm_compute. first [reflexivity | apply perm_swap].
Qed.

(** ** The theorems at concrete inputs *)






(** The session theorem: the session that ends up authenticated went through
    the login with the right credentials. *)
Lemma flag_only_by_verified_login_witness :
  exists pre e u p post,
    [(env_up, GET_admin); (env_up, POST_admin_login "admin" "securepassword")]
    = pre ++ (e, POST_admin_login u p) :: post
    /\ conn e = inr tt
    /\ verify_admin shipped u p (serve shipped pre seeded_world).2
       = (inr true, (serve shipped pre seeded_world).2).
Proof.
  apply (proj2 (flag_only_by_verified_login shipped)
           [(env_up, GET_admin);
            (env_up, POST_admin_login "admin" "securepassword")]
           seeded_world).
  - vm_compute. reflexivity.
  - vm_compute. reflexivity.
Defined.

(** The logs theorem, with and without logs.txt. *)
Lemma view_logs_authenticated_witness :
  logged_in two_users = true
  /\ handle shipped env_up GET_logs two_users
     = (TemplateResponse "logs.html"
          [("logs", "Admin logged in successfully")] 200, two_users)
  /\ handle shipped env_down GET_logs two_users
     = (ErrorResponse 404 "Logs not available",
        emit (Log ERROR "Log file not found") two_users).
Proof.
  assert (Hin : logged_in two_users = true) by (vm_compute; reflexivity).
  split; [exact Hin|]. split.
  - apply (proj1 (view_logs_authenticated shipped env_up two_users Hin)).
    reflexivity.
  - apply (proj2 (view_logs_authenticated shipped env_down two_users Hin)).
    reflexivity.
Defined.

(** The read-back theorem: Bo, registered second, is read back unchanged
    after a third registration and a logout. *)
Lemma record_reads_back_witness :
  let pre := [(env_up, POST_root "Ann" "ann@example.org")] in
  let post := [(env_up, POST_root "Cy" "cy@example.org");
               (env_up, POST_admin_logout)] in
  let w1 := (serve shipped pre empty_world).2 in
  let w2 := (serve shipped post
               (handle shipped env_up (POST_root "  Bo " "Bo@Example.ORG")
                  w1).2).2 in
  (incr "users:count" w1).1 = inr 2
  /\ hgetall (user_key 2) w2
     = (inr (new_record "  Bo " "Bo@Example.ORG" 2), w2)
  /\ read_user (user_key 2) w2
     = (inr (Some "Bo", Some "bo@example.org"), w2)
  /\ field w2 (user_key 2) "name" = Some "Bo"
  /\ field w2 (user_key 2) "email" = Some "bo@example.org"
  /\ field w2 (user_key 2) "id" = Some "2".
Proof.
  apply (record_reads_back shipped empty_world
           [(env_up, POST_root "Ann" "ann@example.org")]
           env_up "  Bo " "Bo@Example.ORG"
           [(env_up, POST_root "Cy" "cy@example.org");
            (env_up, POST_admin_logout)]).
  - apply empty_store_ok.
  - vm_compute. reflexivity.
Defined.

(** The dispatcher theorem on the module as it is. *)
Lemma send_email_name_error_witness :
  globals shipped = module_globals
  /\ send_email shipped env_up (Some "ann@example.org") "New Announcement"
       "Hello Ann" two_users
     = (inl (NameError "EmailMessage"), two_users).
Proof.
  split; [reflexivity|].
  apply (send_email_name_error shipped env_up (Some "ann@example.org")
           "New Announcement" "Hello Ann" two_users).
  reflexivity.
Defined.

(** ** More on the connection retry loop *)

Ltac refused_at H i :=
  let e := fresh "e" in
  let Hp := fresh "Hp" in
  let Hc := fresh "Hc" in
  destruct (H i ltac:(lia)) as (e & Hp & Hc); rewrite Hp, Hc.

(** X1. When the first PONG comes after [k] refused connections, [k] below 3,
    the loop returns the connection after [k + 1] pings, having slept one
    second after each refusal and logged one warning per refusal. *)
Theorem retry_returns_on_first_pong pings k fuel :
  (k < 3)%nat ->
  refused_before pings k ->
  pings k = Pong ->
  exists tr,
    get_redis_with_retry (S k + fuel) pings = (Some (inr tt), tr)
    /\ attempts tr = S k
    /\ sleeps tr = replicate k 1
    /\ length (logged WARNING tr) = k.
Proof.
  intros Hk Hr Hp. unfold get_redis_with_retry.
  destruct k as [|[|[|k]]]; [| | |lia]; simpl.
  - rewrite Hp. by eexists.
  - refused_at Hr 0%nat. simpl. rewrite Hp. by eexists.
  - refused_at Hr 0%nat. simpl. refused_at Hr 1%nat. simpl. rewrite Hp.
    by eexists.
Qed.

(** X2. An exception of a ping that is neither a connection nor an
    authentication error ends the loop at once: it is raised as it is, after
    that ping, without a warning for it and without a sleep after it. *)
Theorem retry_lets_other_errors_through pings k e fuel :
  (k < 3)%nat ->
  refused_before pings k ->
  pings k = PingRaises e ->
  is_ConnectionError e = false ->
  exists tr,
    get_redis_with_retry (S k + fuel) pings = (Some (inl e), tr)
    /\ attempts tr = S k
    /\ last tr = Some Ping
    /\ length (logged WARNING tr) = k.
Proof.
  intros Hk Hr Hp He. unfold get_redis_with_retry.
  destruct k as [|[|[|k]]]; [| | |lia]; simpl.
  - rewrite Hp, He. by eexists.
  - refused_at Hr 0%nat. simpl. rewrite Hp, He. by eexists.
  - refused_at Hr 0%nat. simpl. refused_at Hr 1%nat. simpl. rewrite Hp, He.
    by eexists.
Qed.

(** X3. After three refused connections the loop gives up with
    [ConnectionError("Max retries reached...")]: exactly three pings, a
    one-second sleep after the first and the second refusal and none after
    the third, three warnings, whatever a fourth ping would have answered. *)
Theorem retry_gives_up_after_three pings fuel :
  refused_before pings 3 ->
  exists tr,
    get_redis_with_retry (4 + fuel) pings
    = (Some (inl (RedisConnectionError
                    "Max retries reached. Could not connect to Redis.")), tr)
    /\ attempts tr = 3%nat
    /\ sleeps tr = [1; 1]
    /\ length (logged WARNING tr) = 3%nat
    /\ exists m, last tr = Some (Log WARNING m).
Proof.
  intros Hr. unfold get_redis_with_retry. simpl.
  refused_at Hr 0%nat. simpl. refused_at Hr 1%nat. simpl.
  refused_at Hr 2%nat. simpl.
  eexists. repeat split. by eexists.
Qed.

(** ** The store dependency *)

(** X4. No Redis error leaves [get_redis]: one raised by the connection or
    let through by the endpoint is answered as an [HTTPException] with status
    500 after one ERROR log line, and when the connection fails the endpoint
    does not run.  Anything else passes unchanged: an exception of another
    class, and the endpoint's own result. *)
Theorem get_redis_contract {A} (r : exn + unit) (endpoint : M A) w :
  no_redis_error (get_redis r endpoint w).1
  /\ (forall e, r = inl e -> is_RedisError e = true ->
        exists detail msg,
          get_redis r endpoint w
          = (inl (HTTPException 500 detail), emit (Log ERROR msg) w))
  /\ (forall e, r = inl e -> is_RedisError e = false ->
        get_redis r endpoint w = (inl e, w))
  /\ (forall e w', r = inr tt -> endpoint w = (inl e, w') ->
        is_RedisError e = true ->
        exists detail msg,
          get_redis r endpoint w
          = (inl (HTTPException 500 detail), emit (Log ERROR msg) w'))
  /\ (r = inr tt -> no_redis_error (endpoint w).1 ->
        get_redis r endpoint w = endpoint w).
Proof.
  assert (Hh : forall e w0, is_RedisError e = true ->
            exists detail msg,
              (if is_AuthenticationError e
               then exec log ERROR
                      "Redis authentication failed. Please check password.";
                    raise (HTTPException 500
                      "Database authentication failed. Please check Redis credentials.")
               else if is_ConnectionError e
               then exec log ERROR ("Redis connection error: " +:+ exn_str e);
                    raise (HTTPException 500
                      "Database connection failed. Please check Redis credentials.")
               else exec log ERROR ("Redis error: " +:+ exn_str e);
                    raise (A:=A) (HTTPException 500 "Database operation failed"))
                w0
              = (inl (HTTPException 500 detail), emit (Log ERROR msg) w0)).
  { intros e w0 _. destruct (is_AuthenticationError e); [by eexists _, _|].
    destruct (is_ConnectionError e); by eexists _, _. }
  split; [|split; [|split; [|split]]].
  - unfold get_redis, try_except.
    destruct r as [e|[]]; [unfold raise|].
    + destruct (is_RedisError e) eqn:He; [|done].
      destruct (is_AuthenticationError e); [done|].
      by destruct (is_ConnectionError e).
    + destruct (endpoint w) as [[e|a] w'] eqn:Hm; [|done].
      destruct (is_RedisError e) eqn:He; [|done].
      destruct (is_AuthenticationError e); [done|].
      by destruct (is_ConnectionError e).
  - intros e -> He. unfold get_redis, try_except, raise. rewrite He.
    apply (Hh e w He).
  - intros e -> He. unfold get_redis, try_except, raise. by rewrite He.
  - intros e w' -> Hm He. unfold get_redis, try_except. rewrite Hm, He.
    apply (Hh e w' He).
  - intros -> Hm. unfold get_redis, try_except.
    destruct (endpoint w) as [[e|a] w'] eqn:Hw; [|done].
    simpl in Hm. by rewrite Hm.
Qed.

(** ** Start-up and the administrator account *)

Lemma initialize_present rt w :
  is_Some (redis w !! "admin:account") ->
  initialize_admin_account rt w = (inr tt, w).
Proof.
  intros Hp. unfold initialize_admin_account, bind, r_exists.
  by rewrite (bool_decide_eq_true_2 _ Hp).
Qed.

Lemma initialize_absent rt w :
  redis w !! "admin:account" = None ->
  initialize_admin_account rt w
  = (inr tt,
     emit (Log INFO "Admin account initialized")
       (set_redis
          (<["admin:account" :=
               RHash (<["password" := bcrypt_hashpw rt (ADMIN_PASSWORD rt)]>
                        (<["username" := ADMIN_USERNAME rt]> ∅))]>
             (redis w)) w)).
Proof.
  intros Hv. unfold initialize_admin_account, bind, r_exists, hset, log.
  rewrite Hv. rewrite bool_decide_eq_false_2 by (by intros [? ?]).
  cbn [negb]. by rewrite Hv.
Qed.

(** X5. The account of the first run wins: once "admin:account" exists,
    whatever it holds, initialization under any configuration leaves the
    world as it is, so a later change of ADMIN_USERNAME or ADMIN_PASSWORD
    never reaches the stored account. *)
Theorem first_account_wins rt1 rt2 w :
  (is_Some (redis w !! "admin:account") ->
     initialize_admin_account rt2 w = (inr tt, w))
  /\ redis (initialize_admin_account rt2
              (initialize_admin_account rt1 w).2).2
     = redis (initialize_admin_account rt1 w).2.
Proof.
  split; [apply initialize_present|].
  destruct (redis w !! "admin:account") as [v|] eqn:Hv.
  - rewrite (initialize_present rt1 w (mk_is_Some _ _ Hv)). cbn [snd].
    by rewrite (initialize_present rt2 w (mk_is_Some _ _ Hv)).
  - rewrite (initialize_absent rt1 w Hv). cbn [snd].
    rewrite initialize_present; [done|].
    cbn [redis emit set_redis]. rewrite lookup_insert_eq. by eexists.
Qed.

(** X6. On a store without an account, initialization followed by
    [verify_admin] answers [False] for every username but the configured
    one, and for the configured one whatever [bcrypt.checkpw] makes of the
    password and the hash just made: its verdict, or the exception it
    raises. *)
Theorem seeded_account_verifies rt w u p :
  redis w !! "admin:account" = None ->
  verify_admin rt u p (initialize_admin_account rt w).2
  = (if bool_decide (u = ADMIN_USERNAME rt)
     then bcrypt_checkpw rt p (bcrypt_hashpw rt (ADMIN_PASSWORD rt))
     else inr false,
     (initialize_admin_account rt w).2).
Proof.
  intros Hv. rewrite (initialize_absent rt w Hv). cbn [snd].
  unfold verify_admin, bind, hgetall. cbn [redis emit set_redis].
  rewrite lookup_insert_eq.
  rewrite bool_decide_eq_false_2.
  2:{ intros H. apply (f_equal (fun m => m !! "password")) in H.
      by rewrite lookup_insert_eq, lookup_empty in H. }
  rewrite lookup_insert_ne by done. rewrite !lookup_insert_eq. simpl.
  destruct (bool_decide (u = ADMIN_USERNAME rt)); simpl; [|done].
  by destruct (bcrypt_checkpw rt p (bcrypt_hashpw rt (ADMIN_PASSWORD rt))).
Qed.

(** X7. Start-up seeds the account only when the ping answers PONG.  A falsy
    ping and a connection error become [RuntimeError("Redis connection
    failed")], an authentication error [RuntimeError("Redis authentication
    failed")], any other exception is raised as it is; in all these cases the
    store is left untouched. *)
Theorem startup_outcomes rt ping w :
  match ping with
  | Pong =>
      (startup_event rt Pong w).1 = inr tt
      /\ redis (startup_event rt Pong w).2
         = redis (initialize_admin_account rt w).2
  | NotPong =>
      (startup_event rt NotPong w).1
      = inl (RuntimeError "Redis connection failed")
      /\ redis (startup_event rt NotPong w).2 = redis w
  | PingRaises e =>
      (startup_event rt (PingRaises e) w).1
      = inl (if is_AuthenticationError e
             then RuntimeError "Redis authentication failed"
             else if is_ConnectionError e
             then RuntimeError "Redis connection failed"
             else e)
      /\ redis (startup_event rt (PingRaises e) w).2 = redis w
  end.
Proof.
  destruct ping as [| |e].
  - assert (Hrun : forall w1,
              initialize_admin_account rt (emit Ping w) = (inr tt, w1) ->
              startup_event rt Pong w
              = (inr tt,
                 emit (Log INFO "Redis connection established successfully")
                   w1)).
    { intros w1 Hi. unfold startup_event, try_except.
      rewrite (bind_inr _ _ w tt (emit Ping w) eq_refl), bind_ret_l.
      by rewrite (bind_inr _ _ _ _ _ Hi). }
    destruct (redis w !! "admin:account") as [v|] eqn:Hv.
    + assert (Hp : is_Some (redis (emit Ping w) !! "admin:account"))
        by (by eexists).
      rewrite (Hrun _ (initialize_present rt _ Hp)).
      by rewrite (initialize_present rt w (mk_is_Some _ _ Hv)).
    + rewrite (Hrun _ (initialize_absent rt (emit Ping w) Hv)).
      by rewrite (initialize_absent rt w Hv).
  - done.
  - unfold startup_event, try_except, bind, event_, raise.
    destruct e; done.
Qed.

#[export] Instance same_account_frame : Frame same_account.
Proof. split; unfold same_account; intros; simpl; congruence. Qed.

Lemma keeps_hset_account k m :
  k <> "admin:account" -> keeps same_account (hset k m).
Proof.
  intros Hk w. unfold hset, same_account.
  destruct (redis w !! k) as [[?|?]|]; simpl; try done;
    by rewrite lookup_insert_ne.
Qed.

Lemma keeps_incr_account k :
  k <> "admin:account" -> keeps same_account (incr k).
Proof.
  intros Hk w. unfold incr, same_account.
  destruct (redis w !! k) as [[s|?]|]; simpl; try done.
  - destruct (PyStr.int_of_str s); [|done].
    destruct (_ || _); [done|]. destruct (_ =? _); [done|].
    simpl. by rewrite lookup_insert_ne.
  - by rewrite lookup_insert_ne.
Qed.

Lemma keeps_session_account (m : M unit) :
  keeps same_redis m -> keeps same_account m.
Proof. intros Hm w. unfold same_account. by rewrite (Hm w). Qed.

Lemma register_user_account rt name email :
  keeps same_account (register_user rt name email).
Proof.
  unfold register_user, validate_email.
  repeat (first [ keeps_step
                | apply keeps_hset_account; discriminate
                | apply keeps_incr_account; discriminate ];
          try typeclasses eauto).
Qed.

Lemma handle_account rt e r w :
  redis (handle rt e r w).2 !! "admin:account" = redis w !! "admin:account".
Proof.
  rewrite handle_snd.
  destruct r as [|name email| |u p| |message| | |]; simpl; try done.
  - apply (with_store_frame same_account), register_user_account.
  - by rewrite (with_store_frame same_redis _ _ _ (admin_login_redis rt u p) w).
  - apply (admin_panel_frame same_account).
  - apply (with_store_frame same_account), broadcast_message_frame;
      typeclasses eauto.
  - apply (view_logs_frame same_account).
Qed.

(** X8. No request reads or writes its way into the administrator account:
    after any sequence of requests, on any store, "admin:account" holds what
    it held, so [verify_admin] gives every pair of credentials the outcome it
    gave before, verdict or exception. *)
Theorem account_never_changes rt rs w :
  redis (serve rt rs w).2 !! "admin:account" = redis w !! "admin:account"
  /\ (forall u p,
        verify_admin rt u p (serve rt rs w).2
        = ((verify_admin rt u p w).1, (serve rt rs w).2)).
Proof.
  assert (Hkeep : redis (serve rt rs w).2 !! "admin:account"
                  = redis w !! "admin:account").
  { revert w. induction rs as [|[e r] rs IH]; intros w; [done|].
    rewrite serve_cons. cbn [snd]. rewrite IH. apply handle_account. }
  split; [done|]. intros u p.
  unfold verify_admin, bind, hgetall. rewrite Hkeep.
  destruct (redis w !! "admin:account") as [[s|h]|]; simpl; try done.
  destruct (bool_decide (h = ∅)); [done|].
  destruct (bool_decide (u = _)); [|done].
  by destruct (bcrypt_checkpw rt p _).
Qed.

(** ** The session between login and logout *)

(** X9. Only a logout ends a session: any other request, a failed login or
    a request answered with an error included, leaves an authenticated
    session authenticated. *)
Theorem session_survives rt e r w :
  r <> POST_admin_logout ->
  logged_in w = true ->
  logged_in (handle rt e r w).2 = true.
Proof.
  intros Hr Hw.
  destruct (handle_session_cases rt e r w)
    as [Hs|[[Hs _]|(u & p & _ & _ & _ & _ & Hs)]].
  - by rewrite (logged_in_same _ _ Hs).
  - done.
  - unfold logged_in. rewrite Hs. by rewrite lookup_insert_eq.
Qed.

(** ** More on registration *)

(** X11. On any world, well formed or not, [register_user] ends in one of
    five ways: one of its three responses, the [HTTPException] 500
    "Database operation failed" that stands for every Redis error, or an
    exception of the validator that is not a Redis error.  A Redis error
    itself never leaves the handler. *)
Theorem register_user_outcomes rt name email w :
  match (register_user rt name email w).1 with
  | inr x => x = invalid_email \/ x = already_registered \/ x = registered_ok
  | inl ex =>
      ex = HTTPException 500 "Database operation failed"
      \/ (EmailStr_validate rt email = Some ex /\ is_RedisError ex = false)
  end.
Proof.
  unfold register_user, validate_email, try_except.
  destruct (EmailStr_validate rt email) as [ex|] eqn:Hv.
  { destruct ex; simpl; eauto. }
  rewrite bind_ret_l. cbn [negb].
  unfold bind at 1, hexists.
  destruct (redis w !! "users:emails") as [[s|h]|]; simpl; eauto.
  - destruct (bool_decide (is_Some (h !! email))); simpl; eauto 6.
    unfold bind at 1, incr.
    destruct (redis w !! "users:count") as [[s|?]|]; simpl; eauto.
    + destruct (PyStr.int_of_str s); simpl; eauto.
      destruct (_ || _); simpl; eauto. destruct (_ =? _); simpl; eauto.
      unfold bind at 1, hset at 1. cbn [redis set_redis].
      destruct (_ !! _) as [[?|?]|]; simpl; eauto;
        unfold bind at 1, hset at 1; cbn [redis set_redis];
        destruct (_ !! _) as [[?|?]|]; simpl; eauto 6.
    + unfold bind at 1, hset at 1. cbn [redis set_redis].
      destruct (_ !! _) as [[?|?]|]; simpl; eauto;
        unfold bind at 1, hset at 1; cbn [redis set_redis];
        destruct (_ !! _) as [[?|?]|]; simpl; eauto 6.
  - unfold bind at 1, incr.
    destruct (redis w !! "users:count") as [[s|?]|]; simpl; eauto.
    + destruct (PyStr.int_of_str s); simpl; eauto.
      destruct (_ || _); simpl; eauto. destruct (_ =? _); simpl; eauto.
      unfold bind at 1, hset at 1. cbn [redis set_redis].
      destruct (_ !! _) as [[?|?]|]; simpl; eauto;
        unfold bind at 1, hset at 1; cbn [redis set_redis];
        destruct (_ !! _) as [[?|?]|]; simpl; eauto 6.
    + unfold bind at 1, hset at 1. cbn [redis set_redis].
      destruct (_ !! _) as [[?|?]|]; simpl; eauto;
        unfold bind at 1, hset at 1; cbn [redis set_redis];
        destruct (_ !! _) as [[?|?]|]; simpl; eauto 6.
Qed.

(** X12. On a store that satisfies the invariant [store_ok] and has room in
    the counter, with the store connection up, a submission whose name and
    email fields are both filled in and whose email the validator accepts is
    rejected as already registered exactly when the email as submitted,
    character for character, is a key of the index, and is registered exactly
    when it is not: the lookup does not normalize. *)
Theorem duplicate_check_is_literal rt e name email w :
  store_ok (redis w) ->
  filled name = true ->
  filled email = true ->
  conn e = inr tt ->
  EmailStr_validate rt email = None ->
  counter (redis w) < INT64_MAX ->
  ((handle rt e (POST_root name email) w).1 = already_registered
     <-> is_Some (index (redis w) !! email))
  /\ ((handle rt e (POST_root name email) w).1 = registered_ok
     <-> index (redis w) !! email = None).
Proof.
  intros Hok Hfn Hfe Hc Hv Hmax.
  assert (Hrun : (handle rt e (POST_root name email) w).1
                 = if bool_decide (is_Some (index (redis w) !! email))
                   then already_registered else registered_ok).
  { unfold handle. cbn [endpoint].
    rewrite with_store_eq. cbn [forallb]. rewrite Hfn, Hfe, Hc. cbn [andb].
    unfold get_redis, try_except.
    rewrite (register_user_eq rt name email (add_trace (conn_trace e) w) Hok).
    unfold register_user_result. rewrite Hv. cbn [redis add_trace].
    destruct (bool_decide (is_Some (index (redis w) !! email))); [done|].
    apply Z.ltb_lt in Hmax. by rewrite Hmax. }
  rewrite Hrun.
  destruct (bool_decide_reflect (is_Some (index (redis w) !! email)))
    as [Hi|Hi].
  - split; split; try done.
    intros Hn. rewrite Hn in Hi. by destruct Hi.
  - apply eq_None_not_Some in Hi. split; split; try done.
    intros [? Hs]. congruence.
Qed.

Lemma handle_index_keys rt e r w k :
  store_ok (redis w) ->
  is_Some (index (redis w) !! k) ->
  is_Some (index (redis (handle rt e r w).2) !! k).
Proof.
  intros Hok Hk.
  destruct r as [|name email| |u p| |message| | |];
    try (rewrite handle_redis_other; [done|intros; discriminate]).
  destruct (register_request rt e name email w Hok)
    as [(_ & _ & _ & _ & _ & ->)|[_ ->]]; [|done].
  rewrite registered_index, lookup_insert. by case_decide.
Qed.

Lemma serve_index_keys rt rs w k :
  store_ok (redis w) ->
  is_Some (index (redis w) !! k) ->
  is_Some (index (redis (serve rt rs w).2) !! k).
Proof.
  revert w. induction rs as [|[e r] rs IH]; intros w Hok Hk; [done|].
  rewrite serve_cons. cbn [snd].
  apply IH; [apply (handle_store rt e r w Hok)|by apply handle_index_keys].
Qed.

(** X13. A registered email stays taken: on a store that satisfies the
    invariant [store_ok], once a registration has gone through, and after any
    further requests, a submission of the normalized form of that email, with
    both fields filled in, the store connection up and the validator
    accepting, is rejected with the 400 "Email already registered"; it
    leaves the store and the session as they were and adds to the log only
    what the connection attempts wrote. *)
Theorem normalized_resubmission_rejected rt e1 name1 email rs e2 name2 w :
  store_ok (redis w) ->
  (handle rt e1 (POST_root name1 email) w).1 = registered_ok ->
  filled name2 = true ->
  filled (norm email) = true ->
  conn e2 = inr tt ->
  EmailStr_validate rt (norm email) = None ->
  handle rt e2 (POST_root name2 (norm email))
    (serve rt rs (handle rt e1 (POST_root name1 email) w).2).2
  = (already_registered,
     add_trace (conn_trace e2)
       (serve rt rs (handle rt e1 (POST_root name1 email) w).2).2).
Proof.
  intros Hok Hans Hfn Hfe Hc Hv.
  destruct (register_request rt e1 name1 email w Hok)
    as [(_ & _ & _ & _ & Hmax & Hreg)|[Hne _]]; [|by destruct Hne].
  set (w1 := (handle rt e1 (POST_root name1 email) w).2) in *.
  assert (Hok1 : store_ok (redis w1)).
  { rewrite Hreg. by apply registered_store_ok. }
  assert (Hk1 : is_Some (index (redis w1) !! norm email)).
  { rewrite Hreg, registered_index, lookup_insert_eq. by eexists. }
  apply literal_duplicate_rejected; [|done|done|done|done|].
  - apply (serve_store rt rs w1 Hok1).
  - by apply serve_index_keys.
Qed.

(** ** Normalization *)

Lemma isspace_lower_char c :
  PyStr.isspace (PyStr.lower_char c) = PyStr.isspace c.
Proof. destruct c as [[] [] [] [] [] [] [] []]; reflexivity. Qed.

Lemma lower_char_idem c :
  PyStr.lower_char (PyStr.lower_char c) = PyStr.lower_char c.
Proof. destruct c as [[] [] [] [] [] [] [] []]; reflexivity. Qed.

Lemma lower_idem s : PyStr.lower (PyStr.lower s) = PyStr.lower s.
Proof.
  induction s as [|c s IH]; [done|]. simpl. by rewrite lower_char_idem, IH.
Qed.

Lemma lower_lstrip s :
  PyStr.lower (PyStr.lstrip s) = PyStr.lstrip (PyStr.lower s).
Proof.
  induction s as [|c s IH]; [done|]. simpl. rewrite isspace_lower_char.
  by destruct (PyStr.isspace c).
Qed.

Lemma lower_rstrip s :
  PyStr.lower (PyStr.rstrip s) = PyStr.rstrip (PyStr.lower s).
Proof.
  induction s as [|c s IH]; [done|]. simpl. rewrite <- IH.
  rewrite isspace_lower_char.
  destruct (PyStr.rstrip s) as [|d r]; simpl; [|done].
  by destruct (PyStr.isspace c).
Qed.

Lemma lstrip_head s :
  PyStr.lstrip s = EmptyString
  \/ exists c t, PyStr.lstrip s = String c t /\ PyStr.isspace c = false.
Proof.
  induction s as [|c s IH]; [by left|]. simpl.
  destruct (PyStr.isspace c) eqn:Hc; [done|]. right. by exists c, s.
Qed.

Lemma rstrip_idem s : PyStr.rstrip (PyStr.rstrip s) = PyStr.rstrip s.
Proof.
  induction s as [|c s IH]; [done|]. simpl.
  destruct (PyStr.rstrip s) as [|d r] eqn:Hr.
  - destruct (PyStr.isspace c) eqn:Hc; [done|]. simpl. by rewrite Hc.
  - change (PyStr.rstrip (String c (String d r)))
      with (match PyStr.rstrip (String d r) with
            | EmptyString =>
                if PyStr.isspace c then EmptyString else String c EmptyString
            | r' => String c r'
            end).
    by rewrite IH.
Qed.

Lemma strip_idem s : PyStr.strip (PyStr.strip s) = PyStr.strip s.
Proof.
  unfold PyStr.strip.
  assert (Hl : PyStr.lstrip (PyStr.rstrip (PyStr.lstrip s))
               = PyStr.rstrip (PyStr.lstrip s)).
  { destruct (lstrip_head s) as [->|(c & t & -> & Hc)]; [done|].
    cbn [PyStr.rstrip]. rewrite Hc.
    destruct (PyStr.rstrip t); cbn [PyStr.lstrip]; by rewrite Hc. }
  by rewrite Hl, rstrip_idem.
Qed.

Lemma norm_idem email : norm (norm email) = norm email.
Proof.
  unfold norm, PyStr.strip.
  rewrite lower_rstrip, lower_lstrip, lower_idem.
  apply strip_idem.
Qed.

(** X16. Stored emails are normalized: from a well-formed store whose emails
    are lowercased and trimmed, after any sequence of requests every email in
    a record and every key of the index is lowercased and trimmed, that is,
    left unchanged by [lower().strip()]. *)
Theorem stored_emails_are_normalized rt rs w :
  store_ok (redis w) ->
  emails_normalized w ->
  (forall id em,
     field (serve rt rs w).2 (user_key id) "email" = Some em ->
     PyStr.strip (PyStr.lower em) = em)
  /\ (forall em uid,
        index (redis (serve rt rs w).2) !! em = Some uid ->
        PyStr.strip (PyStr.lower em) = em).
Proof.
  revert w. induction rs as [|[e r] rs IH]; intros w Hok Hn; [exact Hn|].
  rewrite serve_cons. cbn [snd].
  destruct (handle_store rt e r w Hok) as (Hok1 & _ & _).
  apply IH; [done|].
  assert (Hsame : redis (handle rt e r w).2 = redis w ->
                  emails_normalized (handle rt e r w).2).
  { intros Hs. unfold emails_normalized, field. rewrite Hs. exact Hn. }
  destruct r as [|name email| |u p| |message| | |];
    try (apply Hsame, handle_redis_other; intros; discriminate).
  destruct (register_request rt e name email w Hok)
    as [(_ & _ & _ & _ & _ & Hreg)|[_ Hs]]; [|by apply Hsame].
  destruct Hn as [Hrec Hidx]. split.
  - intros id em. unfold field. rewrite Hreg.
    destruct (decide (id = counter (redis w) + 1)) as [->|Hne].
    + rewrite registered_new.
      destruct (new_record_fields name email (counter (redis w) + 1))
        as (_ & -> & _).
      intros [= <-]. apply norm_idem.
    + rewrite registered_other;
        [|apply user_key_not_count|apply user_key_not_index
         |by intros H%user_key_inj].
      apply Hrec.
  - intros em uid. rewrite Hreg, registered_index, lookup_insert.
    case_decide as Hem.
    + intros _. subst em. apply norm_idem.
    + apply Hidx.
Qed.

(** ** The index under repeated emails *)


(** ** The broadcast of the module as it is *)

(** X18. In the module as it is, on a store that satisfies the invariant
    [store_ok], an authenticated broadcast with a non-empty message and the
    store connection up goes through exactly when nobody is registered: with
    no record it answers the success page and logs "sent to 0 users"; with at
    least one record the first dispatch raises [NameError], the request is
    answered with a plain 500, and nothing is sent or changed; the log gains
    only what the connection attempts wrote. *)
Theorem broadcast_works_only_without_users rt e message w :
  globals rt = module_globals ->
  filled message = true ->
  conn e = inr tt ->
  logged_in w = true ->
  store_ok (redis w) ->
  (user_keys w = [] ->
     handle rt e (POST_admin_broadcast message) w
     = (TemplateResponse "admin.html"
          [("success", "Message broadcasted successfully")] 200,
        emit (Log INFO "Broadcast message sent to 0 users")
          (add_trace (conn_trace e) w)))
  /\ (user_keys w <> [] ->
      handle rt e (POST_admin_broadcast message) w
      = (ErrorResponse 500 "Internal Server Error",
         add_trace (conn_trace e) w)).
Proof.
  intros Hg Hf Hc Hin Hok. unfold logged_in, flag in Hin.
  assert (Hhandle :
            handle rt e (POST_admin_broadcast message) w
            = ((fun r => (answer r.1, r.2))
                 (get_redis (inr tt) (broadcast_message rt e message)
                    (add_trace (conn_trace e) w)))).
  { unfold handle. cbn [endpoint]. rewrite with_store_eq. cbn [forallb].
    rewrite Hf, Hc. cbn [andb]. by destruct (get_redis _ _ _). }
  rewrite Hhandle. clear Hhandle.
  set (w0 := add_trace (conn_trace e) w).
  assert (Hin0 : truthy (session w0 !! "admin_logged_in") = true)
    by exact Hin.
  assert (Hok0 : store_ok (redis w0)) by exact Hok.
  change (user_keys w) with (user_keys w0).
  clearbody w0. clear w Hin Hok.
  rename w0 into w, Hin0 into Hin, Hok0 into Hok.
  assert (Hstart :
            broadcast_message rt e message w
            = try_except
                (do keys <- scan_iter "user:*";
                 do users <- collect keys read_user;
                 exec for_each users (send_to rt e message);
                 exec log INFO ("Broadcast message sent to "
                                +:+ PyStr.str (Z.of_nat (length users))
                                +:+ " users");
                 ret (TemplateResponse "admin.html"
                        [("success", "Message broadcasted successfully")] 200))
                (fun ex => is_RedisError ex || is_AttributeError ex)
                (fun ex =>
                   exec log ERROR ("Broadcast error: " +:+ exn_str ex);
                   raise (HTTPException 500 "Failed to process broadcast"))
                w).
  { unfold broadcast_message, bind at 1, session_get. by rewrite Hin. }
  split.
  - intros Hnil.
    assert (get_redis (inr tt) (broadcast_message rt e message) w
            = (inr (TemplateResponse "admin.html"
                      [("success", "Message broadcasted successfully")] 200),
               emit (Log INFO "Broadcast message sent to 0 users") w)) as ->;
      [|done].
    unfold get_redis.
    unfold try_except at 1. rewrite Hstart.
    unfold try_except.
    rewrite (bind_inr _ _ _ _ _ (scan_user_keys w)), Hnil.
    reflexivity.
  - intros Hne.
    assert (get_redis (inr tt) (broadcast_message rt e message) w
            = (inl (NameError "EmailMessage"), w)) as ->; [|done].
    unfold get_redis.
    unfold try_except at 1. rewrite Hstart.
    unfold try_except.
    rewrite (bind_inr _ _ _ _ _ (scan_user_keys w)).
    assert (Hhash : forall k, k ∈ user_keys w ->
              forall s, redis w !! k <> Some (RString s)).
    { intros k [Hp Hk]%user_keys_spec s Hs.
      destruct (ok_prefix _ Hok k Hp Hk) as (id & -> & _).
      destruct (ok_record _ Hok id _ Hs) as (h & em & Hv & _). done. }
    rewrite (bind_inr _ _ _ _ _ (collect_read_user w (user_keys w) Hhash)).
    destruct (user_keys w) as [|k ks] eqn:Hks; [done|].
    assert (Hname : is_Some (user_at w k).1).
    { assert (Hk : k ∈ user_keys w) by (rewrite Hks; apply list_elem_of_here).
      apply user_keys_spec in Hk as [Hp [v Hv]].
      destruct (ok_prefix _ Hok k Hp (mk_is_Some _ _ Hv)) as (id & -> & _).
      destruct (ok_record _ Hok id v Hv) as (h & em & -> & _ & Hn & _).
      unfold user_at, field. by rewrite Hv. }
    destruct Hname as [n Hn].
    assert (Hsend : send_to rt e message (user_at w k) w
                    = (inl (NameError "EmailMessage"), w)).
    { unfold send_to. rewrite Hn. unfold send_email.
      by rewrite (module_has_no_EmailMessage rt Hg). }
    cbn [map for_each].
    rewrite (bind_inl _ _ _ _ _ (bind_inl _ _ _ _ _ Hsend)).
    reflexivity.
Qed.

Lemma field_empty_world key f : field empty_world key f = None.
Proof. unfold field. simpl. by rewrite lookup_empty. Qed.

Lemma empty_emails_normalized : emails_normalized empty_world.
Proof.
  split.
  - intros id em. by rewrite field_empty_world.
  - intros em uid. unfold index. simpl. rewrite lookup_empty.
    intros H. by rewrite lookup_empty in H.
Qed.



Lemma two_users_store_ok : store_ok (redis two_users).
Proof. apply serve_store, seeded_store_ok. Qed.

Lemma refused_once_before : refused_before refused_once 1.
Proof.
  intros i Hi. destruct i; [|lia]. eexists. by split.
Qed.

(** One refusal, then PONG: two pings, one sleep. *)
Lemma retry_returns_on_first_pong_witness :
  exists tr,
    get_redis_with_retry 2 refused_once = (Some (inr tt), tr)
    /\ attempts tr = 2%nat
    /\ sleeps tr = [1]
    /\ length (logged WARNING tr) = 1%nat.
Proof.
  apply (retry_returns_on_first_pong refused_once 1 0).
  - lia.
  - exact refused_once_before.
  - reflexivity.
Defined.

(** One refusal, then a timeout: the timeout is raised after the second
    ping. *)
Lemma retry_lets_other_errors_through_witness :
  exists tr,
    get_redis_with_retry 2 refused_then_timeout
    = (Some (inl (RedisTimeoutError "Timeout reading from socket")), tr)
    /\ attempts tr = 2%nat
    /\ last tr = Some Ping
    /\ length (logged WARNING tr) = 1%nat.
Proof.
  apply (retry_lets_other_errors_through refused_then_timeout 1
           (RedisTimeoutError "Timeout reading from socket") 0).
  - lia.
  - intros i Hi. destruct i; [|lia]. eexists. by split.
  - reflexivity.
  - reflexivity.
Defined.

(** Every connection refused. *)
Lemma retry_gives_up_after_three_witness :
  exists tr,
    get_redis_with_retry 4 always_refused
    = (Some (inl (RedisConnectionError
                    "Max retries reached. Could not connect to Redis.")), tr)
    /\ attempts tr = 3%nat
    /\ sleeps tr = [1; 1]
    /\ length (logged WARNING tr) = 3%nat
    /\ exists m, last tr = Some (Log WARNING m).
Proof.
  apply (retry_gives_up_after_three always_refused 0).
  intros i Hi. eexists. by split.
Defined.

(** The defaults of lines 40-41 on a fresh store. *)
Lemma seeded_account_verifies_witness :
  verify_admin shipped "admin" "securepassword"
    (initialize_admin_account shipped empty_world).2
  = (if bool_decide ("admin" = ADMIN_USERNAME shipped)
     then bcrypt_checkpw shipped "securepassword"
            (bcrypt_hashpw shipped (ADMIN_PASSWORD shipped))
     else inr false,
     (initialize_admin_account shipped empty_world).2).
Proof.
  apply (seeded_account_verifies shipped empty_world "admin" "securepassword").
  reflexivity.
Defined.

(** A failed login from an authenticated session. *)
Lemma session_survives_witness :
  logged_in (handle shipped env_up (POST_admin_login "admin" "guess")
               two_users).2 = true.
Proof.
  apply (session_survives shipped env_up (POST_admin_login "admin" "guess")
           two_users).
  - discriminate.
  - vm_compute. reflexivity.
Defined.

(** ANN@EXAMPLE.ORG is not a key of the index that holds ann@example.org. *)
Lemma duplicate_check_is_literal_witness :
  (handle shipped env_up (POST_root "Ann" "ANN@EXAMPLE.ORG") two_users).1
  = registered_ok
  <-> index (redis two_users) !! "ANN@EXAMPLE.ORG" = None.
Proof.
  apply (duplicate_check_is_literal shipped env_up "Ann" "ANN@EXAMPLE.ORG"
           two_users).
  - exact two_users_store_ok.
  - reflexivity.
  - reflexivity.
  - reflexivity.
  - vm_compute. reflexivity.
  - vm_compute. reflexivity.
Defined.

(** Ann@Example.org registered, then a logout, then ann@example.org. *)
Lemma normalized_resubmission_rejected_witness :
  handle shipped env_up (POST_root "Ann again" (norm "Ann@Example.org"))
    (serve shipped [(env_up, POST_admin_logout)]
       (handle shipped env_up (POST_root "Ann" "Ann@Example.org")
          empty_world).2).2
  = (already_registered,
     add_trace (conn_trace env_up)
       (serve shipped [(env_up, POST_admin_logout)]
          (handle shipped env_up (POST_root "Ann" "Ann@Example.org")
             empty_world).2).2).
Proof.
  apply (normalized_resubmission_rejected shipped env_up "Ann"
           "Ann@Example.org" [(env_up, POST_admin_logout)] env_up "Ann again"
           empty_world).
  - exact empty_store_ok.
  - vm_compute. reflexivity.
  - reflexivity.
  - reflexivity.
  - reflexivity.
  - vm_compute. reflexivity.
Defined.

Lemma stored_emails_are_normalized_witness :
  (forall id em,
     field (serve shipped same_email_twice empty_world).2 (user_key id)
       "email" = Some em ->
     PyStr.strip (PyStr.lower em) = em)
  /\ (forall em uid,
        index (redis (serve shipped same_email_twice empty_world).2) !! em
        = Some uid ->
        PyStr.strip (PyStr.lower em) = em).
Proof.
  apply (stored_emails_are_normalized shipped same_email_twice empty_world).
  - exact empty_store_ok.
  - exact empty_emails_normalized.
Defined.


(** Ann and Bo registered: the broadcast fails. *)
Lemma broadcast_works_only_without_users_witness :
  handle shipped env_up (POST_admin_broadcast "Hello {{Student_name}}")
    two_users
  = (ErrorResponse 500 "Internal Server Error",
     add_trace (conn_trace env_up) two_users).
Proof.
  apply (proj2 (broadcast_works_only_without_users shipped env_up
                  "Hello {{Student_name}}" two_users eq_refl eq_refl eq_refl
                  ltac:(vm_compute; reflexivity) two_users_store_ok)).
  vm_compute. discriminate.
Defined.


Lemma replace_placeholder_witness :
  PyStr.replace ("Dear " +:+ "{{Student_name}}" +:+ ", hello {{Student_name}}")
    "{{Student_name}}" "Ann"
  = "Dear " +:+ "Ann"
    +:+ PyStr.replace ", hello {{Student_name}}" "{{Student_name}}" "Ann".
Proof.
  apply (replace_placeholder "Dear " ", hello {{Student_name}}" "Ann").
  reflexivity.
Defined.

